(** * The GitHub URL reader of Backstage: a shallow embedding

    Sources embedded here:
    - [packages/integration/src/helpers.ts]  ([basicIntegrations])
    - [packages/backend-common/src/reading/GithubUrlReader.ts]

    The reader talks to an upstream over HTTP.  A computation is a function
    of the upstream and of the list of requests issued so far; it returns a
    value or a thrown error together with the extended request list.  The
    upstream may answer the same request differently at different moments:
    its answer is a function of the requests it has already seen. *)

From Stdlib Require Import String Ascii List ZArith NArith Bool Lia.
From Stdlib.Strings Require Import Byte.
From Stdlib Require Import DecimalString.
Import ListNotations.
Open Scope string_scope.

Set Implicit Arguments.

(* ------------------------------------------------------------------ *)
(** * JavaScript values used by the code *)

(** Truthiness of a [string | undefined]: [undefined] and [''] are falsy. *)
Definition truthy (v : option string) : bool :=
  match v with
  | Some s => negb (s =? "")
  | None => false
  end.

(** [a || b] on a string [a]. *)
Definition or_else (a b : string) : string :=
  if a =? "" then b else a.

(** A template-literal hole filled with a [string | undefined]. *)
Definition interpolate (v : option string) : string :=
  match v with
  | Some s => s
  | None => "undefined"
  end.

Definition string_of_bool (b : bool) : string :=
  if b then "true" else "false".

(** A template-literal hole filled with an integer. *)
Definition string_of_Z (z : Z) : string :=
  NilZero.string_of_int (Z.to_int z).

Definition option_string_eqb (a b : option string) : bool :=
  match a, b with
  | Some x, Some y => x =? y
  | None, None => true
  | _, _ => false
  end.

(** The classes of errors the code throws or lets through. *)
Inductive ErrorClass : Type :=
| Error_             (* new Error(message) *)
| TypeError          (* raised by the platform *)
| SyntaxError        (* raised by response.json() *)
| NotFoundError      (* ../errors *)
| NotModifiedError   (* ../errors *)
| UnsupportedUrl     (* raised by the registry only *)
| ArchiveTooLarge    (* raised by the tree materializer only *)
| Foreign (name : string).  (* any error class of the transport *)

Record Error : Type := mkError { name : ErrorClass; message : string }.

Definition class_name (c : ErrorClass) : string :=
  match c with
  | Error_ => "Error"
  | TypeError => "TypeError"
  | SyntaxError => "SyntaxError"
  | NotFoundError => "NotFoundError"
  | NotModifiedError => "NotModifiedError"
  | UnsupportedUrl => "UnsupportedUrl"
  | ArchiveTooLarge => "ArchiveTooLarge"
  | Foreign n => n
  end.

(** [`${e}`] for an error object: Error.prototype.toString. *)
Definition error_toString (e : Error) : string :=
  let n := class_name (name e) in
  if message e =? "" then n
  else if n =? "" then message e
  else n ++ ": " ++ message e.

Inductive Result (A : Type) : Type :=
| Ok (a : A)
| Throw (e : Error).
Arguments Ok {A} a.
Arguments Throw {A} e.

(* ------------------------------------------------------------------ *)
(** * URLs

    A parsed WHATWG URL, as far as the code reads it.  [port] is [""] when
    the URL has no port or the default port of its scheme. *)
Module URL.
Record t : Type := mk { href : string; hostname : string; port : string }.

(** The [host] getter: the hostname, followed by [:port] when there is one. *)
Definition host (u : t) : string :=
  if port u =? "" then hostname u else hostname u ++ ":" ++ port u.
End URL.

(* ------------------------------------------------------------------ *)
(** * helpers.ts *)

(** Array.prototype.find is [List.find]. *)
Section BasicIntegrations.
Variable T : Type.

(** [new URL(s)]: the platform's parser; [None] when it throws. *)
Variable new_URL : string -> option URL.t.

Record ScmIntegrationsGroup : Type := {
  list_ : unit -> list T;
  byUrl : string + URL.t -> Result (option T);
  byHost : string -> option T
}.

Definition basicIntegrations (integrations : list T) (getHost : T -> string)
  : ScmIntegrationsGroup :=
  {| list_ := fun _ => integrations;
     byUrl := fun url =>
       let parsed :=
         match url with
         | inl s =>
             match new_URL s with
             | Some u => Ok u
             | None => Throw (mkError TypeError "Invalid URL")
             end
         | inr u => Ok u
         end in
       match parsed with
       | Ok parsed =>
           Ok (find (fun i => getHost i =? URL.hostname parsed) integrations)
       | Throw e => Throw e
       end;
     byHost := fun host =>
       find (fun i => getHost i =? host) integrations |}.
End BasicIntegrations.

(* ------------------------------------------------------------------ *)
(** * Buffers and text

    A [Buffer] is a list of bytes.  [response.text()] decodes the body bytes
    as UTF-8, every malformed sequence becoming U+FFFD, and [Buffer.from(s)]
    encodes a string as UTF-8.  The decoded text is kept as its list of
    Unicode scalar values; a byte order mark is kept like any other
    character. *)
Definition Buffer : Type := list byte.

Definition byte_of (n : N) : byte :=
  match Byte.of_N (n mod 256) with
  | Some b => b
  | None => x00
  end.

Module Utf8.
Local Open Scope N_scope.

(** State of the decoder between two bytes. *)
Record state : Type := mk {
  code_point : N;
  bytes_needed : nat;
  lower : N;
  upper : N
}.

Definition initial : state := mk 0 0 0x80 0xBF.

Definition REPLACEMENT : N := 0xFFFD.

(** A byte read when no sequence is in progress. *)
Definition lead (b : N) : list N * state :=
  if b <=? 0x7F then ([b], initial)
  else if (0xC2 <=? b) && (b <=? 0xDF) then
    ([], mk (N.land b 0x1F) 1 0x80 0xBF)
  else if (0xE0 <=? b) && (b <=? 0xEF) then
    ([], mk (N.land b 0xF) 2
            (if b =? 0xE0 then 0xA0 else 0x80)
            (if b =? 0xED then 0x9F else 0xBF))
  else if (0xF0 <=? b) && (b <=? 0xF4) then
    ([], mk (N.land b 0x7) 3
            (if b =? 0xF0 then 0x90 else 0x80)
            (if b =? 0xF4 then 0x8F else 0xBF))
  else ([REPLACEMENT], initial).

Definition step (st : state) (b : N) : list N * state :=
  match bytes_needed st with
  | O => lead b
  | S k =>
      if (lower st <=? b) && (b <=? upper st) then
        let cp := N.lor (N.shiftl (code_point st) 6) (N.land b 0x3F) in
        match k with
        | O => ([cp], initial)
        | S _ => ([], mk cp k 0x80 0xBF)
        end
      else
        (* the sequence is broken: emit U+FFFD and read the byte afresh *)
        let (out, st') := lead b in (REPLACEMENT :: out, st')
  end.

Fixpoint decode_from (st : state) (bs : Buffer) : list N :=
  match bs with
  | [] =>
      match bytes_needed st with
      | O => []
      | S _ => [REPLACEMENT]
      end
  | b :: rest =>
      let (out, st') := step st (Byte.to_N b) in
      out ++ decode_from st' rest
  end.

Definition decode (bs : Buffer) : list N := decode_from initial bs.

Definition encode_one (c : N) : Buffer :=
  if c <=? 0x7F then [byte_of c]
  else if c <=? 0x7FF then
    [byte_of (N.lor 0xC0 (N.shiftr c 6));
     byte_of (N.lor 0x80 (N.land c 0x3F))]
  else if c <=? 0xFFFF then
    [byte_of (N.lor 0xE0 (N.shiftr c 12));
     byte_of (N.lor 0x80 (N.land (N.shiftr c 6) 0x3F));
     byte_of (N.lor 0x80 (N.land c 0x3F))]
  else
    [byte_of (N.lor 0xF0 (N.shiftr c 18));
     byte_of (N.lor 0x80 (N.land (N.shiftr c 12) 0x3F));
     byte_of (N.lor 0x80 (N.land (N.shiftr c 6) 0x3F));
     byte_of (N.lor 0x80 (N.land c 0x3F))].

Definition encode (s : list N) : Buffer := flat_map encode_one s.
End Utf8.

(* ------------------------------------------------------------------ *)
(** * The payloads of the GitHub v3 API, as far as the code reads them *)

Record GhRepoResponse : Type := {
  branches_url : string;
  default_branch : string;
  trees_url : string;
  archive_url : string
}.

(** [branch.commit.sha]; the code asserts it present with [!]. *)
Record GhBranchResponse : Type := { commit_sha : string }.

Module TreeItem.
(** One entry of a recursive tree listing; every field is optional in the
    API's type. *)
Record t : Type := mk {
  type : option string;
  path : option string;
  url : option string
}.
End TreeItem.

Record GhTreeResponse : Type := {
  tree : list TreeItem.t;
  truncated : bool
}.

Record GhBlobResponse : Type := { content : string }.

(** What [response.json()] resolves to, read at the type the code gives it. *)
Inductive Json : Type :=
| JRepo (r : GhRepoResponse)
| JBranch (b : GhBranchResponse)
| JTree (t : GhTreeResponse)
| JBlob (b : GhBlobResponse).

Module TarEntry.
(** A file of an unpacked archive. *)
Record t : Type := mk { path : string; bytes : Buffer }.
End TarEntry.

(* ------------------------------------------------------------------ *)
(** * The transport *)

Definition Headers : Type := list (string * string).

(** [{...headers, key: value}] *)
Fixpoint set_header (key value : string) (hs : Headers) : Headers :=
  match hs with
  | [] => [(key, value)]
  | (k, v) :: rest =>
      if k =? key then (key, value) :: rest
      else (k, v) :: set_header key value rest
  end.

Record RequestInit : Type := { headers : Headers }.

Record Request : Type := { request_url : string; request_init : RequestInit }.

Module Body.
(** A response body: its bytes, and the two structured readings the code
    takes of it -- decoded as JSON ([None]: not JSON) and unpacked as a tar
    archive ([None]: not an archive). *)
Record t : Type := mk {
  bytes : Buffer;
  json : option Json;
  tar : option (list TarEntry.t)
}.
End Body.

Record Response : Type := {
  status : Z;
  statusText : string;
  body : Body.t
}.

(** [response.ok]: the status is in the range 200-299. *)
Definition ok (r : Response) : bool :=
  (200 <=? status r)%Z && (status r <=? 299)%Z.

(** [response.text()] *)
Definition text (r : Response) : list N := Utf8.decode (Body.bytes (body r)).

(** [Buffer.from(s)] for a string [s]. *)
Definition Buffer_from (s : list N) : Buffer := Utf8.encode s.

Inductive FetchOutcome : Type :=
| Rejected (e : Error)        (* the promise rejects: transport failure *)
| Responded (r : Response).

Definition History : Type := list Request.

Definition Upstream : Type := History -> Request -> FetchOutcome.

(* ------------------------------------------------------------------ *)
(** * Asynchronous computations *)

Definition M (A : Type) : Type := Upstream -> History -> Result A * History.

Definition ret {A} (a : A) : M A := fun _ h => (Ok a, h).

Definition throw {A} (e : Error) : M A := fun _ h => (Throw e, h).

Definition bind {A B} (m : M A) (f : A -> M B) : M B :=
  fun net h =>
    match m net h with
    | (Ok a, h') => f a net h'
    | (Throw e, h') => (Throw e, h')
    end.

(** [try { m } catch (e) { handler(e) }] *)
Definition try_catch {A} (m : M A) (handler : Error -> M A) : M A :=
  fun net h =>
    match m net h with
    | (Ok a, h') => (Ok a, h')
    | (Throw e, h') => handler e net h'
    end.

(** A synchronous call that may throw. *)
Definition lift {A} (r : Result A) : M A := fun _ h => (r, h).

Declare Scope async_scope.
Delimit Scope async_scope with async.
Notation "'let*' x := m 'in' k" := (bind m (fun x => k))
  (at level 10, x name, m at level 100, k at level 200) : async_scope.
Open Scope async_scope.

(** [fetch(url, init)] of cross-fetch. *)
Definition fetch (url : string) (init : RequestInit) : M Response :=
  fun net h =>
    let req := {| request_url := url; request_init := init |} in
    match net h req with
    | Rejected e => (Throw e, (h ++ [req])%list)
    | Responded r => (Ok r, (h ++ [req])%list)
    end.

(** [response.json()] *)
Definition json (r : Response) : M Json :=
  match Body.json (body r) with
  | Some j => ret j
  | None => throw (mkError SyntaxError "invalid json response body")
  end.

(* ------------------------------------------------------------------ *)
(** * String operations of the platform *)

(** The text before and after the first occurrence of [pat] in [s]. *)
Fixpoint split_first (pat s : string) : option (string * string) :=
  if String.prefix pat s then
    Some ("", substring (String.length pat)
                        (String.length s - String.length pat) s)
  else
    match s with
    | EmptyString => None
    | String c s' =>
        match split_first pat s' with
        | Some (before, after) => Some (String c before, after)
        | None => None
        end
    end.

(** The replacement text of [String.prototype.replace] for a string pattern:
    [$$], [$&], [$`] and [$'] are expanded, any other character is literal. *)
Fixpoint substitution (matched before after replacement : string) : string :=
  match replacement with
  | EmptyString => ""
  | String "$" (String "$" r) => "$" ++ substitution matched before after r
  | String "$" (String "&" r) => matched ++ substitution matched before after r
  | String "$" (String "`" r) => before ++ substitution matched before after r
  | String "$" (String "'" r) => after ++ substitution matched before after r
  | String c r => String c (substitution matched before after r)
  end.

(** [s.replace(pat, replacement)] for a string [pat]: the first occurrence. *)
Definition replace (s pat replacement : string) : string :=
  match split_first pat s with
  | Some (before, after) =>
      before ++ substitution pat before after replacement ++ after
  | None => s
  end.

(** [s.replace(/^\/+/, '')] *)
Fixpoint strip_leading_slashes (s : string) : string :=
  match s with
  | String "/" r => strip_leading_slashes r
  | _ => s
  end.

(** [x!] on a [string | undefined]; the code uses it behind a truthiness
    guard only. *)
Definition non_null (v : option string) : string :=
  match v with
  | Some s => s
  | None => ""
  end.

(* ------------------------------------------------------------------ *)
(** * Types of the reader (./types, ./tree, @backstage/integration) *)

Record GitHubIntegrationConfig : Type := {
  host : string;
  apiBaseUrl : option string;
  rawBaseUrl : option string;
  token : option string
}.

Module ResponseFile.
Record t : Type := mk { path : string; content : unit -> M Buffer }.
End ResponseFile.

Module ReadTreeOptions.
Record t : Type := mk {
  etag : option string;
  filter : option (string -> bool)
}.
End ReadTreeOptions.

Module SearchOptions.
Record t : Type := mk { etag : option string }.
End SearchOptions.

Module ReadTreeResponse.
Record t : Type := mk {
  files : unit -> M (list ResponseFile.t);
  etag : string
}.
End ReadTreeResponse.

Module SearchResponse.
Record t : Type := mk { files : list ResponseFile.t; etag : string }.
End SearchResponse.

Module FromTarArchive.
(** The argument of [ReadTreeResponseFactory.fromTarArchive]. *)
Record t : Type := mk {
  stream : Body.t;
  subpath : string;
  etag : string;
  filter : option (string -> bool)
}.
End FromTarArchive.

Record ReadTreeResponseFactory : Type := {
  fromTarArchive : FromTarArchive.t -> M ReadTreeResponse.t
}.

(** The provider's contract is a function of the URL that does not throw
    for a URL of its own integration. *)
Record GithubCredentialsProvider : Type := {
  getCredentials : string -> RequestInit
}.

(** What [parseGitUrl] (git-url-parse) returns, as far as the code reads it. *)
Record GitUrl : Type := {
  ref : string;
  full_name : string;
  filepath : string
}.

(** The functions the module imports from other packages.  They are taken
    as given: [parseGitUrl], the glob matcher and the base64 decoder as total
    functions, [getGitHubFileFetchUrl] as a function that may throw. *)
Record Imports : Type := {
  getGitHubFileFetchUrl : string -> GitHubIntegrationConfig -> Result string;
  parseGitUrl : string -> GitUrl;
  (** [new Minimatch(pattern).match(path)] *)
  Minimatch_match : string -> string -> bool;
  (** [Buffer.from(s, 'base64')] *)
  Buffer_from_base64 : string -> Buffer;
  GithubCredentialsProvider_create :
    GitHubIntegrationConfig -> GithubCredentialsProvider
}.

Record Deps : Type := {
  treeResponseFactory : ReadTreeResponseFactory;
  credentialsProvider : GithubCredentialsProvider
}.

Record GithubUrlReader : Type := { config : GitHubIntegrationConfig; deps : Deps }.

Record RepoDetails : Type := { repo : GhRepoResponse; branch : GhBranchResponse }.

(* ------------------------------------------------------------------ *)
(** * GithubUrlReader.ts *)

(** The constructor. *)
Definition new_GithubUrlReader (config : GitHubIntegrationConfig) (deps : Deps)
  : Result GithubUrlReader :=
  if negb (truthy (apiBaseUrl config)) && negb (truthy (rawBaseUrl config)) then
    Throw (mkError Error_
      ("GitHub integration for '" ++ host config
       ++ "' must configure an explicit apiBaseUrl and rawBaseUrl"))
  else Ok {| config := config; deps := deps |}.

Definition toString (this : GithubUrlReader) : string :=
  "github{host=" ++ host (config this) ++ ",authed="
  ++ string_of_bool (truthy (token (config this))) ++ "}".

(** [options?.etag && options.etag === commitSha] *)
Definition etag_matches (etag : option string) (commitSha : string) : bool :=
  truthy etag && option_string_eqb etag (Some commitSha).

(** The filter of the direct listing in [doSearch]. *)
Definition matching (matcher : string -> bool) (item : TreeItem.t) : bool :=
  option_string_eqb (TreeItem.type item) (Some "blob")
  && truthy (TreeItem.path item)
  && truthy (TreeItem.url item)
  && match TreeItem.path item with
     | Some p => matcher p
     | None => false
     end.

Section Reader.
Variable imports : Imports.
Variable this : GithubUrlReader.

Definition fetchResponse (url : string) (init : RequestInit) : M Response :=
  let* response := fetch url init in
  if negb (ok response) then
    let message := "Request failed for " ++ url ++ ", "
                   ++ string_of_Z (status response) ++ " "
                   ++ statusText response in
    if (status response =? 404)%Z then throw (mkError NotFoundError message)
    else throw (mkError Error_ message)
  else ret response.

Definition fetchJson (url : string) (init : RequestInit) : M Json :=
  let* response := fetchResponse url init in
  json response.

(** The payload read at its declared type; a payload of another shape
    makes the first access fail. *)
Definition as_repo (j : Json) : M GhRepoResponse :=
  match j with
  | JRepo r => ret r
  | _ => throw (mkError TypeError "Cannot read property of undefined")
  end.
Definition as_branch (j : Json) : M GhBranchResponse :=
  match j with
  | JBranch b => ret b
  | _ => throw (mkError TypeError "Cannot read property of undefined")
  end.
Definition as_tree (j : Json) : M GhTreeResponse :=
  match j with
  | JTree t => ret t
  | _ => throw (mkError TypeError "Cannot read property of undefined")
  end.
Definition as_blob (j : Json) : M GhBlobResponse :=
  match j with
  | JBlob b => ret b
  | _ => throw (mkError TypeError "Cannot read property of undefined")
  end.

Definition getRepoDetails (url : string) : M RepoDetails :=
  let parsed := parseGitUrl imports url in
  let init := getCredentials (credentialsProvider (deps this)) url in
  let* j := fetchJson
              (interpolate (apiBaseUrl (config this)) ++ "/repos/"
               ++ full_name parsed) init in
  let* repo := as_repo j in
  let* j := fetchJson
              (replace (branches_url repo) "{/branch}"
                 ("/" ++ or_else (ref parsed) (default_branch repo)))
              init in
  let* branch := as_branch j in
  ret {| repo := repo; branch := branch |}.

Definition read (url : string) : M Buffer :=
  let* ghUrl := lift (getGitHubFileFetchUrl imports url (config this)) in
  let init := getCredentials (credentialsProvider (deps this)) url in
  let* response :=
    try_catch
      (fetch ghUrl
         {| headers := set_header "Accept" "application/vnd.github.v3.raw"
                         (headers init) |})
      (fun e => throw (mkError Error_
                  ("Unable to read " ++ url ++ ", " ++ error_toString e))) in
  if ok response then ret (Buffer_from (text response))
  else
    let message := url ++ " could not be read as " ++ ghUrl ++ ", "
                   ++ string_of_Z (status response) ++ " "
                   ++ statusText response in
    if (status response =? 404)%Z then throw (mkError NotFoundError message)
    else throw (mkError Error_ message).

Definition doReadTree (archiveUrl sha subpath : string) (init : RequestInit)
    (options : option ReadTreeOptions.t) : M ReadTreeResponse.t :=
  let* archive :=
    fetchResponse
      (replace (replace archiveUrl "{archive_format}" "tarball")
         "{/ref}" ("/" ++ sha))
      init in
  fromTarArchive (treeResponseFactory (deps this))
    {| FromTarArchive.stream := body archive;
       FromTarArchive.subpath := subpath;
       FromTarArchive.etag := sha;
       FromTarArchive.filter :=
         match options with
         | Some o => ReadTreeOptions.filter o
         | None => None
         end |}.

Definition readTree (url : string) (options : option ReadTreeOptions.t)
  : M ReadTreeResponse.t :=
  let* repoDetails := getRepoDetails url in
  let commitSha := commit_sha (branch repoDetails) in
  if etag_matches
       (match options with
        | Some o => ReadTreeOptions.etag o
        | None => None
        end) commitSha
  then throw (mkError NotModifiedError "")
  else
    let filepath := filepath (parseGitUrl imports url) in
    let init := getCredentials (credentialsProvider (deps this)) url in
    doReadTree (archive_url (repo repoDetails)) commitSha filepath init
      options.

(** The file [doSearch] returns for an entry of the direct listing. *)
Definition listed_file (init : RequestInit) (item : TreeItem.t)
  : ResponseFile.t :=
  {| ResponseFile.path := non_null (TreeItem.path item);
     ResponseFile.content := fun _ =>
       let* j := fetchJson (non_null (TreeItem.url item)) init in
       let* blob := as_blob j in
       ret (Buffer_from_base64 imports (content blob)) |}.

Definition doSearch (treesUrl archiveUrl sha query : string)
    (init : RequestInit) : M (list ResponseFile.t) :=
  let matcher := Minimatch_match imports (strip_leading_slashes query) in
  let* j := fetchJson
              (replace treesUrl "{/sha}" ("/" ++ sha ++ "?recursive=true"))
              init in
  let* recursiveTree := as_tree j in
  if negb (truncated recursiveTree) then
    let matching := List.filter (matching matcher) (tree recursiveTree) in
    ret (map (listed_file init) matching)
  else
    let* tree :=
      doReadTree archiveUrl sha "" init
        (Some {| ReadTreeOptions.etag := None;
                 ReadTreeOptions.filter := Some matcher |}) in
    ReadTreeResponse.files tree tt.

Definition search (url : string) (options : option SearchOptions.t)
  : M SearchResponse.t :=
  let* repoDetails := getRepoDetails url in
  let commitSha := commit_sha (branch repoDetails) in
  if etag_matches
       (match options with
        | Some o => SearchOptions.etag o
        | None => None
        end) commitSha
  then throw (mkError NotModifiedError "")
  else
    let filepath := filepath (parseGitUrl imports url) in
    let init := getCredentials (credentialsProvider (deps this)) url in
    let* files :=
      doSearch (trees_url (repo repoDetails))
        (archive_url (repo repoDetails)) commitSha filepath init in
    ret {| SearchResponse.files := files; SearchResponse.etag := commitSha |}.
End Reader.

(** [GithubUrlReader.factory]: one reader and one URL predicate for each
    configured integration.  [configs] is what [readGitHubIntegrationConfigs]
    returned. *)
Record ReaderPredicateTuple : Type := {
  reader : GithubUrlReader;
  predicate : URL.t -> bool
}.

(** [configs.map(f)] for an [f] that may throw. *)
Fixpoint map_throwing {A B} (f : A -> Result B) (l : list A) : Result (list B) :=
  match l with
  | [] => Ok []
  | a :: rest =>
      match f a with
      | Throw e => Throw e
      | Ok b =>
          match map_throwing f rest with
          | Throw e => Throw e
          | Ok bs => Ok (b :: bs)
          end
      end
  end.

Definition factory (imports : Imports) (configs : list GitHubIntegrationConfig)
    (treeResponseFactory : ReadTreeResponseFactory)
  : Result (list ReaderPredicateTuple) :=
  map_throwing
    (fun provider =>
       let credentialsProvider :=
         GithubCredentialsProvider_create imports provider in
       match new_GithubUrlReader provider
               {| treeResponseFactory := treeResponseFactory;
                  credentialsProvider := credentialsProvider |} with
       | Throw e => Throw e
       | Ok reader =>
           Ok {| reader := reader;
                 predicate := fun url => URL.host url =? host provider |}
       end)
    configs.

(* ------------------------------------------------------------------ *)
(** * Collaborators that are not among the sources *)

(** Modelled from the spec: the Registry that dispatches a URL over the
    (reader, predicate) pairs is not among the sources.  Section 4.1: the
    first pair whose predicate accepts the URL wins; when none does the
    Registry signals [UnsupportedUrl]. *)
Definition resolve (pairs : list ReaderPredicateTuple) (url : URL.t)
  : Result GithubUrlReader :=
  match find (fun p => predicate p url) pairs with
  | Some p => Ok (reader p)
  | None => Throw (mkError UnsupportedUrl (URL.href url))
  end.

Definition total_size (entries : list TarEntry.t) : N :=
  fold_right (fun e acc => (N.of_nat (length (TarEntry.bytes e)) + acc)%N)
             0%N entries.

(** The directory prefix that scopes the entries: the subpath with a
    closing slash, or nothing for the whole archive. *)
Definition scope_prefix (subpath : string) : string :=
  if subpath =? "" then ""
  else if String.prefix "/" (substring (String.length subpath - 1) 1 subpath)
       then subpath
       else subpath ++ "/".

(** The path of an entry relative to the subpath; [None] outside of it. *)
Definition relative_path (subpath path : string) : option string :=
  let dir := scope_prefix subpath in
  if String.prefix dir path then
    Some (substring (String.length dir)
                    (String.length path - String.length dir) path)
  else None.

Definition passes (filter : option (string -> bool)) (path : string) : bool :=
  match filter with
  | Some f => f path
  | None => true
  end.

(** The files the materializer exposes for an unpacked archive. *)
Fixpoint extract (subpath : string) (filter : option (string -> bool))
    (entries : list TarEntry.t) : list ResponseFile.t :=
  match entries with
  | [] => []
  | e :: rest =>
      match relative_path subpath (TarEntry.path e) with
      | Some p =>
          if passes filter p then
            {| ResponseFile.path := p;
               ResponseFile.content := fun _ => ret (TarEntry.bytes e) |}
            :: extract subpath filter rest
          else extract subpath filter rest
      | None => extract subpath filter rest
      end
  end.

(** Modelled from the spec: the Tree Materializer behind
    [ReadTreeResponseFactory.fromTarArchive] is not among the sources.
    Section 4.7: it stamps the given etag on the result; it unpacks the
    archive and, for each entry whose path relative to the subpath passes the
    filter, exposes a file whose accessor reads the entry's bytes; the file
    list may be asked for more than once; an archive whose unpacked size is
    over the configured maximum fails with [ArchiveTooLarge]. *)
Definition TreeMaterializer (maxSize : N) : ReadTreeResponseFactory :=
  {| fromTarArchive := fun o =>
       ret {| ReadTreeResponse.etag := FromTarArchive.etag o;
              ReadTreeResponse.files := fun _ =>
                match Body.tar (FromTarArchive.stream o) with
                | None => throw (mkError Error_ "not a tar archive")
                | Some entries =>
                    if (maxSize <? total_size entries)%N then
                      throw (mkError ArchiveTooLarge "archive too large")
                    else
                      ret (extract (FromTarArchive.subpath o)
                             (FromTarArchive.filter o) entries)
                end |} |}.

(* ------------------------------------------------------------------ *)
(** * The requests the reader issues, and notions used by the statements *)

Definition request (url : string) (init : RequestInit) : Request :=
  {| request_url := url; request_init := init |}.

Definition tree_request (treesUrl sha : string) (init : RequestInit) : Request :=
  request (replace treesUrl "{/sha}" ("/" ++ sha ++ "?recursive=true")) init.

Definition archive_request (archiveUrl sha : string) (init : RequestInit)
  : Request :=
  request (replace (replace archiveUrl "{archive_format}" "tarball")
             "{/ref}" ("/" ++ sha)) init.

Section Requests.
Variable imports : Imports.
Variable this : GithubUrlReader.
Variable url : string.

Definition credentials : RequestInit :=
  getCredentials (credentialsProvider (deps this)) url.

Definition repo_request : Request :=
  request (interpolate (apiBaseUrl (config this)) ++ "/repos/"
           ++ full_name (parseGitUrl imports url)) credentials.

Definition branch_request (r : GhRepoResponse) : Request :=
  request (replace (branches_url r) "{/branch}"
             ("/" ++ or_else (ref (parseGitUrl imports url))
                             (default_branch r)))
          credentials.

(** The one request [read] issues, for the fetch URL [ghUrl]. *)
Definition read_request (ghUrl : string) : Request :=
  request ghUrl
    {| headers := set_header "Accept" "application/vnd.github.v3.raw"
                    (headers credentials) |}.
End Requests.

Definition paths (files : list ResponseFile.t) : list string :=
  map ResponseFile.path files.

(** [n] invocations of an accessor, one after the other. *)
Fixpoint invoke_times (n : nat) (accessor : unit -> M Buffer) : M (list Buffer) :=
  match n with
  | O => ret []
  | S k =>
      let* b := accessor tt in
      let* bs := invoke_times k accessor in
      ret (b :: bs)
  end.

(** The contract of the tree materializer on the etag (section 4.7): the
    response carries the etag the factory was given. *)
Definition stamps_etag (F : ReadTreeResponseFactory) : Prop :=
  forall o net h resp h',
    fromTarArchive F o net h = (Ok resp, h') ->
    ReadTreeResponse.etag resp = FromTarArchive.etag o.

(* ------------------------------------------------------------------ *)
(** * Fixtures: a small upstream and stand-ins for the imported functions *)

Module Fixture.
Definition api : string := "https://api.github.com/repos/acme/widgets".

Definition repo_json : GhRepoResponse :=
  {| branches_url := api ++ "/branches{/branch}";
     default_branch := "main";
     trees_url := api ++ "/git/trees{/sha}";
     archive_url := api ++ "/{archive_format}{/ref}" |}.

Definition json_body (j : Json) : Body.t :=
  {| Body.bytes := []; Body.json := Some j; Body.tar := None |}.

Definition ok_response (b : Body.t) : Response :=
  {| status := 200; statusText := "OK"; body := b |}.

Definition not_found : Response :=
  {| status := 404; statusText := "Not Found";
     body := {| Body.bytes := []; Body.json := None; Body.tar := None |} |}.

(** An upstream serving one repository whose branch [main] is at commit
    [sha]; [listing] is its answer to the recursive tree request, [archive]
    the unpacked tarball, [blob] the content of every blob, [raw] the bytes
    of every raw file. *)
Definition upstream (sha : string) (listing : GhTreeResponse)
    (archive : list TarEntry.t) (blob : string) (raw : Buffer) : Upstream :=
  fun _ req =>
    let u := request_url req in
    if u =? api then Responded (ok_response (json_body (JRepo repo_json)))
    else if u =? api ++ "/branches/main" then
      Responded (ok_response (json_body (JBranch {| commit_sha := sha |})))
    else if u =? api ++ "/git/trees/" ++ sha ++ "?recursive=true" then
      Responded (ok_response (json_body (JTree listing)))
    else if u =? api ++ "/tarball/" ++ sha then
      Responded (ok_response
        {| Body.bytes := []; Body.json := None; Body.tar := Some archive |})
    else if String.prefix (api ++ "/git/blobs/") u then
      Responded (ok_response (json_body (JBlob {| content := blob |})))
    else if String.prefix "https://raw.githubusercontent.com/" u then
      Responded (ok_response
        {| Body.bytes := raw; Body.json := None; Body.tar := None |})
    else Responded not_found.

(** Stand-ins for the imported functions: every URL is read as a URL into
    the repository [acme/widgets] at [main] with file path [path]; a glob
    without wildcards matches the path equal to it; base64 text is taken
    byte for byte. *)
Definition imports (path : string) : Imports :=
  {| getGitHubFileFetchUrl := fun url cfg =>
       Ok ("https://raw.githubusercontent.com/acme/widgets/main/" ++ path);
     parseGitUrl := fun _ =>
       {| ref := "main"; full_name := "acme/widgets"; filepath := path |};
     Minimatch_match := String.eqb;
     Buffer_from_base64 := list_byte_of_string;
     GithubCredentialsProvider_create := fun cfg =>
       {| getCredentials := fun _ =>
            {| headers :=
                 match token cfg with
                 | Some t => [("Authorization", "token " ++ t)]
                 | None => []
                 end |} |} |}.

Definition github_com : GitHubIntegrationConfig :=
  {| host := "github.com";
     apiBaseUrl := Some "https://api.github.com";
     rawBaseUrl := Some "https://raw.githubusercontent.com";
     token := None |}.

Definition deps_of (cfg : GitHubIntegrationConfig) : Deps :=
  {| treeResponseFactory := TreeMaterializer 1000000;
     credentialsProvider :=
       GithubCredentialsProvider_create (imports "") cfg |}.

Definition github_reader : GithubUrlReader :=
  {| config := github_com; deps := deps_of github_com |}.

(** A parser stand-in that knows one URL. *)
Definition new_URL (s : string) : option URL.t :=
  if s =? "https://github.com/acme/widgets/blob/main/README.md" then
    Some (URL.mk s "github.com" "")
  else None.
End Fixture.

(* ------------------------------------------------------------------ *)
(** * The rest of helpers.ts, and notions used by further statements *)

(** [isValidUrl] of helpers.ts: [new URL(url)] does not throw. *)
Definition isValidUrl (new_URL : string -> option URL.t) (url : string)
  : bool :=
  match new_URL url with
  | Some _ => true
  | None => false
  end.

(** The value of a header: the value of the first entry under the key. *)
Definition get_header (key : string) (hs : Headers) : option string :=
  match find (fun kv => fst kv =? key) hs with
  | Some kv => Some (snd kv)
  | None => None
  end.

(** Does the character occur in the string? *)
Fixpoint has_char (c : ascii) (s : string) : bool :=
  match s with
  | EmptyString => false
  | String c' s' => (c' =? c)%char || has_char c s'
  end.

(** A string of [n] slashes. *)
Fixpoint slashes (n : nat) : string :=
  match n with
  | O => ""
  | S k => String "/" (slashes k)
  end.

(** The config has neither base URL: the constructor's test. *)
Definition lacks_base_urls (cfg : GitHubIntegrationConfig) : bool :=
  negb (truthy (apiBaseUrl cfg)) && negb (truthy (rawBaseUrl cfg)).

(** The Unicode scalar values: the code points outside the surrogate
    range. *)
Definition scalar (c : N) : bool :=
  ((c <? 0xD800) || ((0xE000 <=? c) && (c <=? 0x10FFFF)))%N.

(** The states the UTF-8 decoder can be in between two bytes: what is read
    of a sequence so far can only be completed to a scalar value. *)
Definition reachable (st : Utf8.state) : Prop :=
  let cp := Utf8.code_point st in
  let lo := Utf8.lower st in
  let hi := Utf8.upper st in
  match Utf8.bytes_needed st with
  | 0%nat => True
  | 1%nat => (lo = 128 /\ hi = 191 /\ 2 <= cp /\ cp <= 17407 /\
              (cp < 864 \/ 895 < cp))%N
  | 2%nat => (128 <= lo /\ hi <= 191 /\ cp <= 271 /\
              (cp = 0 -> 160 <= lo) /\ (cp = 13 -> hi <= 159))%N
  | 3%nat => (128 <= lo /\ hi <= 191 /\ cp <= 4 /\
              (cp = 0 -> 144 <= lo) /\ (cp = 4 -> hi <= 143))%N
  | _ => False
  end.

(** The error of [fetchResponse] for an answer outside 2xx. *)
Definition request_failed (url : string) (r : Response) : Error :=
  mkError (if (status r =? 404)%Z then NotFoundError else Error_)
    ("Request failed for " ++ url ++ ", " ++ string_of_Z (status r) ++ " "
     ++ statusText r).

(* ------------------------------------------------------------------ *)
(** * Properties of the host lookup (helpers.ts and the factory) *)

Section FindFirst.
Variable A : Type.
Variable p : A -> bool.

(** [find] returns the first element that satisfies the test. *)
Lemma find_first (l : list A) (a : A) :
  find p l = Some a <->
  exists before after,
    l = (before ++ a :: after)%list /\ p a = true /\
    forall b, In b before -> p b = false.
Proof.
  induction l as [|x l IH]; simpl.
  - split; [discriminate|].
    intros (before & after & E & _). destruct before; discriminate.
  - destruct (p x) eqn:Px.
    + split.
      * intros [= <-]. exists [], l. repeat split; auto. intros b [].
      * intros (before & after & E & Pa & Hb).
        destruct before as [|y before]; simpl in E; injection E as <- E.
        -- reflexivity.
        -- rewrite (Hb x) in Px; [discriminate|now left].
    + rewrite IH. split.
      * intros (before & after & -> & Pa & Hb).
        exists (x :: before), after. repeat split; auto.
        intros b [<-|Hin]; auto.
      * intros (before & after & E & Pa & Hb).
        destruct before as [|y before]; simpl in E; injection E as <- E.
        -- congruence.
        -- exists before, after. repeat split; auto.
           intros b Hin. apply Hb. now right.
Qed.

Lemma find_nothing (l : list A) :
  find p l = None <-> forall b, In b l -> p b = false.
Proof.
  split.
  - intros H b Hin. now apply (find_none p l H).
  - induction l as [|x l IH]; simpl; intros H; [reflexivity|].
    rewrite (H x (or_introl eq_refl)). apply IH.
    intros b Hin. apply H. now right.
Qed.
End FindFirst.

(** C8.  For every list of integrations and every valid URL, given as a
    string the parser accepts or as a parsed URL, [byUrl] returns what
    [byHost] returns for the URL's hostname; that is the first integration
    of the list whose host equals the hostname, and [undefined] exactly when
    no integration has that host. *)
Theorem byUrl_is_byHost_of_hostname
    (T : Type) (new_URL : string -> option URL.t)
    (integrations : list T) (getHost : T -> string)
    (url : string + URL.t) (parsed : URL.t)
    (Hvalid : match url with
              | inl s => new_URL s = Some parsed
              | inr u => u = parsed
              end) :
  let group := basicIntegrations new_URL integrations getHost in
  byUrl group url = Ok (byHost group (URL.hostname parsed)) /\
  (forall i,
      byHost group (URL.hostname parsed) = Some i <->
      exists before after,
        integrations = (before ++ i :: after)%list /\
        getHost i = URL.hostname parsed /\
        forall j, In j before -> getHost j <> URL.hostname parsed) /\
  (byHost group (URL.hostname parsed) = None <->
   forall j, In j integrations -> getHost j <> URL.hostname parsed).
Proof.
  simpl. split; [|split].
  - destruct url as [s|u].
    + now rewrite Hvalid.
    + now subst u.
  - intros i. rewrite find_first. split.
    + intros (before & after & E & Hi & Hb).
      exists before, after. repeat split; auto.
      * now apply String.eqb_eq.
      * intros j Hj. apply String.eqb_neq. auto.
    + intros (before & after & E & Hi & Hb).
      exists before, after. repeat split; auto.
      * now apply String.eqb_eq.
      * intros j Hj. apply String.eqb_neq. auto.
  - rewrite find_nothing. split.
    + intros H j Hj. apply String.eqb_neq. auto.
    + intros H j Hj. apply String.eqb_neq. auto.
Qed.

Lemma byUrl_is_byHost_of_hostname_witness :
  Fixture.new_URL "https://github.com/acme/widgets/blob/main/README.md"
  = Some (URL.mk "https://github.com/acme/widgets/blob/main/README.md"
                 "github.com" "") /\
  byUrl (basicIntegrations Fixture.new_URL [Fixture.github_com] host)
        (inl "https://github.com/acme/widgets/blob/main/README.md")
  = Ok (Some Fixture.github_com).
Proof.
  split; [reflexivity|].
  exact (proj1 (byUrl_is_byHost_of_hostname Fixture.new_URL
                  [Fixture.github_com] host
                  (inl "https://github.com/acme/widgets/blob/main/README.md")
                  (URL.mk
                     "https://github.com/acme/widgets/blob/main/README.md"
                     "github.com" "")
                  eq_refl)).
Defined.

(** What the factory returns: one pair for each config, in order, whose
    predicate compares [url.host] with the config's host. *)
Lemma factory_pairs (imports : Imports) (F : ReadTreeResponseFactory)
    (configs : list GitHubIntegrationConfig)
    (pairs : list ReaderPredicateTuple) :
  factory imports configs F = Ok pairs ->
  Forall2 (fun cfg p =>
             config (reader p) = cfg /\
             forall url, predicate p url = (URL.host url =? host cfg))
          configs pairs.
Proof.
  unfold factory. revert pairs.
  induction configs as [|cfg configs IH]; simpl; intros pairs H.
  - injection H as <-. constructor.
  - destruct (new_GithubUrlReader cfg _) as [r|e] eqn:Hnew; [|discriminate].
    match type of H with
    | context [map_throwing ?f configs] =>
        destruct (map_throwing f configs) as [ps|e] eqn:Hrest
    end; [|discriminate].
    injection H as <-. constructor; [|now apply IH].
    unfold new_GithubUrlReader in Hnew.
    destruct (negb _ && negb _); [discriminate|].
    injection Hnew as <-. simpl. auto.
Qed.

(** The registry over the factory's pairs selects by equality of the
    config's host with [url.host], and signals [UnsupportedUrl] when no
    configured host equals it. *)
Lemma resolve_by_host (imports : Imports) (F : ReadTreeResponseFactory)
    (configs : list GitHubIntegrationConfig)
    (pairs : list ReaderPredicateTuple) (url : URL.t) :
  factory imports configs F = Ok pairs ->
  (forall r, resolve pairs url = Ok r ->
             In (config r) configs /\ host (config r) = URL.host url) /\
  ((exists cfg, In cfg configs /\ host cfg = URL.host url) ->
   exists r, resolve pairs url = Ok r) /\
  ((forall cfg, In cfg configs -> host cfg <> URL.host url) ->
   resolve pairs url = Throw (mkError UnsupportedUrl (URL.href url))).
Proof.
  intros H. apply factory_pairs in H. unfold resolve.
  induction H as [|cfg p configs pairs [Hc Hp] _ (IH1 & IH2 & IH3)]; simpl.
  - repeat split; try discriminate.
    intros (cfg & [] & _).
  - rewrite Hp. destruct (URL.host url =? host cfg) eqn:E.
    + apply String.eqb_eq in E. repeat split.
      * injection H as <-. left. now symmetry.
      * injection H as <-. congruence.
      * eauto.
      * intros Hno. exfalso. apply (Hno cfg); [now left|now symmetry].
    + apply String.eqb_neq in E. repeat split.
      * right. now apply IH1.
      * now apply IH1.
      * intros (cfg' & [<-|Hin] & Hh); [congruence|]. apply IH2. eauto.
      * intros Hno. apply IH3. intros cfg' Hin. apply Hno. now right.
Qed.

(** C3 (the code at the failing input).  An integration is configured for
    the host [ghe.example.com:8443].  For a URL on that host and port the
    predicate the factory builds accepts the URL, so that the registry
    selects the integration, and [byHost] finds it under [url.host];
    [byUrl] compares with [url.hostname], which never carries a port, and
    finds nothing. *)
Theorem byUrl_misses_host_with_port
    (imports : Imports) (F : ReadTreeResponseFactory)
    (new_URL : string -> option URL.t) :
  let cfg := {| host := "ghe.example.com:8443";
                apiBaseUrl := Some "https://ghe.example.com:8443/api/v3";
                rawBaseUrl := None;
                token := None |} in
  let url :=
    URL.mk "https://ghe.example.com:8443/acme/widgets/blob/main/README.md"
           "ghe.example.com" "8443" in
  let group := basicIntegrations new_URL [cfg] host in
  (exists p,
      factory imports [cfg] F = Ok [p] /\
      config (reader p) = cfg /\
      predicate p url = true /\
      resolve [p] url = Ok (reader p)) /\
  byHost group (URL.host url) = Some cfg /\
  byUrl group (inr url) = Ok None.
Proof.
  split; [|split; reflexivity].
  eexists. split; [reflexivity|]. repeat split.
Qed.

(* ------------------------------------------------------------------ *)
(** * Properties of the constructor and of toString *)

(** C6 (as amended).  Constructing a reader throws if and only if each of
    the API base URL and the raw base URL is absent or the empty string; in
    every other case the reader is built on the given config. *)
Theorem constructor_rejects_iff_no_base_url
    (cfg : GitHubIntegrationConfig) (d : Deps) :
  ((exists e, new_GithubUrlReader cfg d = Throw e) <->
   (apiBaseUrl cfg = None \/ apiBaseUrl cfg = Some "") /\
   (rawBaseUrl cfg = None \/ rawBaseUrl cfg = Some "")) /\
  ((exists a, apiBaseUrl cfg = Some a /\ a <> "") \/
   (exists r, rawBaseUrl cfg = Some r /\ r <> "") ->
   new_GithubUrlReader cfg d = Ok {| config := cfg; deps := d |}).
Proof.
  unfold new_GithubUrlReader.
  destruct (apiBaseUrl cfg) as [a|]; destruct (rawBaseUrl cfg) as [r|]; simpl;
    try (destruct (String.eqb_spec a "")); try (destruct (String.eqb_spec r ""));
    subst; simpl; split;
    try (split; [intros [e He]; try discriminate; auto
                |intros [[?|?] [?|?]]; try congruence; eauto]);
    try (intros [(x & Hx & Hn)|(x & Hx & Hn)]; congruence); auto.
Qed.

Lemma constructor_rejects_iff_no_base_url_witness :
  new_GithubUrlReader Fixture.github_com (Fixture.deps_of Fixture.github_com)
  = Ok Fixture.github_reader.
Proof.
  apply (proj2 (constructor_rejects_iff_no_base_url Fixture.github_com
                  (Fixture.deps_of Fixture.github_com))).
  left. eexists. split; [reflexivity|discriminate].
Defined.

(** C6 (counterexample).  A config whose API base URL is present, as the
    empty string, is rejected. *)
Lemma constructor_rejects_empty_base_url :
  let cfg := {| host := "ghe.example.com"; apiBaseUrl := Some "";
                rawBaseUrl := None; token := None |} in
  apiBaseUrl cfg <> None /\
  new_GithubUrlReader cfg (Fixture.deps_of cfg)
  = Throw (mkError Error_
      "GitHub integration for 'ghe.example.com' must configure an explicit apiBaseUrl and rawBaseUrl").
Proof.
  split; [discriminate|reflexivity].
Qed.

(** C10.  Two readers whose configs have the same host and agree on
    [Boolean(token)] print the same text, whatever their tokens are: the
    text depends on the host and on the presence of a token only, and the
    token's value does not flow into it. *)
Theorem toString_independent_of_token_value (r1 r2 : GithubUrlReader) :
  host (config r1) = host (config r2) ->
  truthy (token (config r1)) = truthy (token (config r2)) ->
  toString r1 = toString r2.
Proof.
  unfold toString. intros -> ->. reflexivity.
Qed.

Lemma toString_independent_of_token_value_witness :
  let r1 := {| config := {| host := "github.com"; apiBaseUrl := None;
                            rawBaseUrl := None; token := Some "s3cr3t" |};
               deps := Fixture.deps_of Fixture.github_com |} in
  let r2 := {| config := {| host := "github.com"; apiBaseUrl := Some "x";
                            rawBaseUrl := None; token := Some "hunter2" |};
               deps := Fixture.deps_of Fixture.github_com |} in
  toString r1 = toString r2 /\ toString r1 = "github{host=github.com,authed=true}".
Proof.
  split; [|reflexivity].
  apply toString_independent_of_token_value; reflexivity.
Defined.

(* ------------------------------------------------------------------ *)
(** * Properties of read *)

Section ReadOutcome.
Variable imports : Imports.
Variable this : GithubUrlReader.
Variable url ghUrl : string.
Hypothesis Hresolved :
  getGitHubFileFetchUrl imports url (config this) = Ok ghUrl.

(** On a 2xx answer [read] returns the body decoded as text and encoded
    again. *)
Lemma read_ok (net : Upstream) (h : History) (r : Response) :
  net h (read_request this url ghUrl) = Responded r -> ok r = true ->
  read imports this url net h
  = (Ok (Utf8.encode (Utf8.decode (Body.bytes (body r)))),
     (h ++ [read_request this url ghUrl])%list).
Proof.
  intros Hnet Hok. unfold read, bind, lift, try_catch, fetch.
  rewrite Hresolved. cbv beta iota zeta.
  unfold read_request, request, credentials in Hnet.
  rewrite Hnet, Hok. reflexivity.
Qed.

(** On an answer outside 2xx [read] throws: [NotFoundError] for status
    404, a plain [Error] otherwise; the message carries the status and the
    status text. *)
Lemma read_not_ok (net : Upstream) (h : History) (r : Response) :
  net h (read_request this url ghUrl) = Responded r -> ok r = false ->
  read imports this url net h
  = (Throw (mkError (if (status r =? 404)%Z then NotFoundError else Error_)
              (url ++ " could not be read as " ++ ghUrl ++ ", "
               ++ string_of_Z (status r) ++ " " ++ statusText r)),
     (h ++ [read_request this url ghUrl])%list).
Proof.
  intros Hnet Hok. unfold read, bind, lift, try_catch, fetch.
  rewrite Hresolved. cbv beta iota zeta.
  unfold read_request, request, credentials in Hnet.
  rewrite Hnet, Hok.
  destruct (status r =? 404)%Z; reflexivity.
Qed.

(** On a transport failure [read] throws a plain [Error] that carries the
    failure's text. *)
Lemma read_rejected (net : Upstream) (h : History) (e : Error) :
  net h (read_request this url ghUrl) = Rejected e ->
  read imports this url net h
  = (Throw (mkError Error_
              ("Unable to read " ++ url ++ ", " ++ error_toString e)),
     (h ++ [read_request this url ghUrl])%list).
Proof.
  intros Hnet. unfold read, bind, lift, try_catch, fetch.
  rewrite Hresolved. cbv beta iota zeta.
  unfold read_request, request, credentials in Hnet.
  rewrite Hnet. reflexivity.
Qed.

(** [read] fails with [NotFoundError] exactly when the upstream answers
    with status 404. *)
Lemma read_not_found_iff (net : Upstream) (h : History) :
  (exists m, fst (read imports this url net h)
             = Throw (mkError NotFoundError m)) <->
  (exists r, net h (read_request this url ghUrl) = Responded r /\ status r = 404%Z).
Proof.
  destruct (net h (read_request this url ghUrl)) as [e|r] eqn:Hnet.
  - rewrite (read_rejected _ _ Hnet). simpl. split.
    + intros [m Hm]. discriminate.
    + intros (r & Hr & _). discriminate.
  - destruct (ok r) eqn:Hok.
    + rewrite (read_ok _ _ Hnet Hok). simpl. split.
      * intros [m Hm]. discriminate.
      * intros (r' & [= <-] & Hs). unfold ok in Hok. rewrite Hs in Hok.
        discriminate.
    + rewrite (read_not_ok _ _ Hnet Hok). simpl.
      destruct (Z.eqb_spec (status r) 404) as [Hs|Hs]; split.
      * eauto.
      * eauto.
      * intros [m Hm]. discriminate.
      * intros (r' & [= <-] & Hs'). contradiction.
Qed.
End ReadOutcome.

(** A body of ASCII bytes survives decoding and encoding. *)
Lemma utf8_roundtrip_ascii (bs : Buffer) :
  Forall (fun b => (Byte.to_N b < 128)%N) bs ->
  Utf8.encode (Utf8.decode bs) = bs.
Proof.
  unfold Utf8.encode, Utf8.decode.
  induction 1 as [|b bs Hb _ IH]; [reflexivity|].
  assert (Hle : (Byte.to_N b <=? 127)%N = true) by (apply N.leb_le; lia).
  cbn [Utf8.decode_from Utf8.step Utf8.initial Utf8.bytes_needed].
  unfold Utf8.lead. change (0x7F)%N with 127%N. rewrite Hle.
  cbn [app flat_map]. rewrite IH. f_equal.
  unfold Utf8.encode_one. change (0x7F)%N with 127%N. rewrite Hle.
  cbn [app]. f_equal.
  unfold byte_of. rewrite N.mod_small by lia.
  now rewrite Byte.of_to_N.
Qed.

(** C4 (the code at the failing input).  The upstream answers 200 with the
    four bytes FF D8 FF E0, the start of a JPEG file.  [read] does not return
    these bytes: it returns twelve bytes, four times the UTF-8 encoding of
    U+FFFD, because it reads the body as text before it makes the buffer. *)
Theorem read_reencodes_binary_body :
  let raw := [xff; xd8; xff; xe0] in
  let net := Fixture.upstream "abc123" {| tree := []; truncated := false |}
               [] "" raw in
  exists h,
    read (Fixture.imports "logo.jpg") Fixture.github_reader
         "https://github.com/acme/widgets/blob/main/logo.jpg" net []
    = (Ok [xef; xbf; xbd; xef; xbf; xbd; xef; xbf; xbd; xef; xbf; xbd], h) /\
    [xef; xbf; xbd; xef; xbf; xbd; xef; xbf; xbd; xef; xbf; xbd] <> raw.
Proof.
  eexists. split; [vm_compute; reflexivity|discriminate].
Qed.

(* ------------------------------------------------------------------ *)
(** * Requests and what they add to the history *)

Lemma fetchResponse_history (url : string) (init : RequestInit)
    (net : Upstream) (h : History) :
  snd (fetchResponse url init net h) = (h ++ [request url init])%list.
Proof.
  unfold fetchResponse, bind, fetch. fold (request url init).
  destruct (net h (request url init)) as [e|r]; [reflexivity|].
  destruct (negb (ok r)); [|reflexivity].
  destruct (status r =? 404)%Z; reflexivity.
Qed.

Lemma fetchResponse_ok (url : string) (init : RequestInit)
    (net : Upstream) (h : History) (r : Response) :
  net h (request url init) = Responded r -> ok r = true ->
  fetchResponse url init net h = (Ok r, (h ++ [request url init])%list).
Proof.
  intros Hnet Hok. unfold fetchResponse, bind, fetch.
  fold (request url init). now rewrite Hnet, Hok.
Qed.

Lemma fetchJson_history (url : string) (init : RequestInit)
    (net : Upstream) (h : History) :
  snd (fetchJson url init net h) = (h ++ [request url init])%list.
Proof.
  unfold fetchJson, bind.
  pose proof (fetchResponse_history url init net h) as H.
  destruct (fetchResponse url init net h) as [[r|e] h']; simpl in *; auto.
  unfold json. destruct (Body.json (body r)); assumption.
Qed.

Lemma fetchJson_ok (url : string) (init : RequestInit)
    (net : Upstream) (h : History) (r : Response) (j : Json) :
  net h (request url init) = Responded r -> ok r = true ->
  Body.json (body r) = Some j ->
  fetchJson url init net h = (Ok j, (h ++ [request url init])%list).
Proof.
  intros Hnet Hok Hj. unfold fetchJson, bind.
  rewrite (fetchResponse_ok _ _ _ _ Hnet Hok). unfold json. now rewrite Hj.
Qed.

(** The result of [fetchJson] depends on the upstream's answer to the one
    request only. *)
Lemma fetchJson_result (url : string) (init : RequestInit)
    (net1 net2 : Upstream) (h1 h2 : History) :
  net1 h1 (request url init) = net2 h2 (request url init) ->
  fst (fetchJson url init net1 h1) = fst (fetchJson url init net2 h2).
Proof.
  intros H. unfold fetchJson, fetchResponse, bind, fetch.
  fold (request url init). rewrite H.
  destruct (net2 h2 (request url init)) as [e|r]; [reflexivity|].
  destruct (negb (ok r)).
  - destruct (status r =? 404)%Z; reflexivity.
  - unfold json, ret, throw. simpl.
    destruct (Body.json (body r)); reflexivity.
Qed.

Section Metadata.
Variable imports : Imports.
Variable this : GithubUrlReader.
Variable url : string.

(** A successful [getRepoDetails] has issued the repository request and
    the branch request, and nothing else. *)
Lemma getRepoDetails_history (net : Upstream) (h h0 : History)
    (d : RepoDetails) :
  getRepoDetails imports this url net h = (Ok d, h0) ->
  h0 = (h ++ [repo_request imports this url;
            branch_request imports this url (repo d)])%list.
Proof.
  unfold getRepoDetails, bind.
  change (getCredentials (credentialsProvider (deps this)) url)
    with (credentials this url).
  pose proof (fetchJson_history
                (interpolate (apiBaseUrl (config this)) ++ "/repos/"
                 ++ full_name (parseGitUrl imports url))
                (credentials this url) net h) as H1.
  destruct (fetchJson _ (credentials this url) net h) as [[j|e] h1];
  [|discriminate].
  simpl in H1. subst h1.
  destruct j as [r| | |]; try discriminate. simpl.
  match goal with
  | |- context [fetchJson ?u (credentials this url) net ?hh] =>
      pose proof (fetchJson_history u (credentials this url) net hh) as H2;
      destruct (fetchJson u (credentials this url) net hh) as [[j|e] h2]
  end; [|discriminate].
  simpl in H2. subst h2.
  destruct j as [|b| |]; try discriminate. simpl.
  intros [= <- <-]. simpl. rewrite <- app_assoc. reflexivity.
Qed.
End Metadata.

(* ------------------------------------------------------------------ *)
(** * The etag short-circuit of readTree and search *)

(** The test [options?.etag && options.etag === commitSha] holds exactly
    for a non-empty etag that equals the commit sha. *)
Lemma etag_matches_iff (etag : option string) (sha : string) :
  etag_matches etag sha = true <->
  exists e, etag = Some e /\ e <> "" /\ e = sha.
Proof.
  unfold etag_matches. destruct etag as [e|]; simpl.
  - rewrite andb_true_iff, negb_true_iff, String.eqb_neq, String.eqb_eq.
    split.
    + intros [Hn He]. eauto.
    + intros (e' & [= <-] & Hn & He). auto.
  - split; [discriminate|]. intros (e & He & _). discriminate.
Qed.

(** The short-circuit: a non-empty etag equal to the resolved commit sha
    makes [readTree] and [search] throw right after the resolution. *)
Lemma not_modified_short_circuit
    (imports : Imports) (this : GithubUrlReader) (url : string)
    (e : string) (filter : option (string -> bool))
    (net : Upstream) (h h0 : History) (d : RepoDetails) :
  getRepoDetails imports this url net h = (Ok d, h0) ->
  e = commit_sha (branch d) ->
  e <> "" ->
  readTree imports this url
    (Some {| ReadTreeOptions.etag := Some e; ReadTreeOptions.filter := filter |})
    net h
  = (Throw (mkError NotModifiedError ""), h0) /\
  search imports this url (Some {| SearchOptions.etag := Some e |}) net h
  = (Throw (mkError NotModifiedError ""), h0).
Proof.
  intros Hd He Hne.
  assert (Hm : etag_matches (Some e) (commit_sha (branch d)) = true).
  { apply etag_matches_iff. eauto. }
  split.
  - unfold readTree, bind. rewrite Hd. simpl. now rewrite Hm.
  - unfold search, bind. rewrite Hd. simpl. now rewrite Hm.
Qed.

(** C2.  A commit id is never the empty string.  When the etag of the
    options equals the commit sha that [getRepoDetails] resolves for the
    URL, [readTree] and [search] fail with [NotModifiedError]; the requests
    issued are those of the resolution, the repository request and the
    branch request, and no request for an archive, a tree or a blob follows
    them. *)
Theorem not_modified_before_any_content_request
    (imports : Imports) (this : GithubUrlReader) (url : string)
    (etag : string) (filter : option (string -> bool))
    (net : Upstream) (h h0 : History) (d : RepoDetails) :
  getRepoDetails imports this url net h = (Ok d, h0) ->
  commit_sha (branch d) <> "" ->
  etag = commit_sha (branch d) ->
  readTree imports this url
    (Some {| ReadTreeOptions.etag := Some etag;
             ReadTreeOptions.filter := filter |})
    net h
  = (Throw (mkError NotModifiedError ""), h0) /\
  search imports this url (Some {| SearchOptions.etag := Some etag |}) net h
  = (Throw (mkError NotModifiedError ""), h0) /\
  h0 = (h ++ [repo_request imports this url;
              branch_request imports this url (repo d)])%list.
Proof.
  intros Hd Hsha He.
  assert (Hne : etag <> "") by congruence.
  destruct (@not_modified_short_circuit imports this url etag filter net h h0
              d Hd He Hne) as [Hr Hs].
  split; [exact Hr|split; [exact Hs|]].
  now apply getRepoDetails_history with (net := net).
Qed.

Lemma not_modified_before_any_content_request_witness :
  let net := Fixture.upstream "abc123" {| tree := []; truncated := false |}
               [] "" [] in
  let d := {| repo := Fixture.repo_json;
              branch := {| commit_sha := "abc123" |} |} in
  let url := "https://github.com/acme/widgets/tree/main/docs" in
  exists h0,
    getRepoDetails (Fixture.imports "docs") Fixture.github_reader url net []
    = (Ok d, h0) /\
    readTree (Fixture.imports "docs") Fixture.github_reader url
      (Some {| ReadTreeOptions.etag := Some "abc123";
               ReadTreeOptions.filter := None |}) net []
    = (Throw (mkError NotModifiedError ""), h0).
Proof.
  intros net d url. eexists. split.
  - vm_compute. reflexivity.
  - refine (proj1 (@not_modified_before_any_content_request
                     (Fixture.imports "docs") Fixture.github_reader url
                     "abc123" None net [] _ d _ _ _)).
    + vm_compute. reflexivity.
    + discriminate.
    + reflexivity.
Defined.

(** C9.  [readTree] and [search] run with the empty etag exactly as they run
    without an etag, on every upstream and from every history.  The
    short-circuit test holds only for a non-empty etag equal to the commit
    sha, and it fails for the empty etag whatever the sha is: once the
    metadata is resolved, [readTree] with the empty etag goes on to
    [doReadTree] and [search] to [doSearch].  The short-circuit of
    [readTree] and [search] themselves fires exactly for a non-empty etag
    equal to the resolved commit sha: for such an etag both throw
    [NotModifiedError] right after the resolution, and for an absent etag,
    the empty etag or an etag different from the resolved sha both go on to
    [doReadTree] and [doSearch]. *)
Theorem empty_etag_is_absent_etag
    (imports : Imports) (this : GithubUrlReader) (url : string)
    (filter : option (string -> bool)) (net : Upstream) (h : History) :
  readTree imports this url
    (Some {| ReadTreeOptions.etag := Some ""; ReadTreeOptions.filter := filter |})
    net h
  = readTree imports this url
      (Some {| ReadTreeOptions.etag := None; ReadTreeOptions.filter := filter |})
      net h /\
  readTree imports this url
    (Some {| ReadTreeOptions.etag := Some ""; ReadTreeOptions.filter := None |})
    net h
  = readTree imports this url None net h /\
  search imports this url (Some {| SearchOptions.etag := Some "" |}) net h
  = search imports this url None net h /\
  search imports this url (Some {| SearchOptions.etag := Some "" |}) net h
  = search imports this url (Some {| SearchOptions.etag := None |}) net h /\
  (forall etag sha,
      etag_matches etag sha = true <->
      exists e, etag = Some e /\ e <> "" /\ e = sha) /\
  (forall sha, etag_matches (Some "") sha = false) /\
  (forall d h0,
      getRepoDetails imports this url net h = (Ok d, h0) ->
      readTree imports this url
        (Some {| ReadTreeOptions.etag := Some "";
                 ReadTreeOptions.filter := filter |}) net h
      = doReadTree this (archive_url (repo d)) (commit_sha (branch d))
          (filepath (parseGitUrl imports url))
          (credentials this url)
          (Some {| ReadTreeOptions.etag := Some "";
                   ReadTreeOptions.filter := filter |}) net h0 /\
      search imports this url (Some {| SearchOptions.etag := Some "" |}) net h
      = bind (doSearch imports this (trees_url (repo d))
                (archive_url (repo d)) (commit_sha (branch d))
                (filepath (parseGitUrl imports url)) (credentials this url))
             (fun files =>
                ret {| SearchResponse.files := files;
                       SearchResponse.etag := commit_sha (branch d) |})
             net h0) /\
  (forall d h0 etag,
      getRepoDetails imports this url net h = (Ok d, h0) ->
      etag = None \/ etag = Some "" \/
      (exists e, etag = Some e /\ e <> commit_sha (branch d)) ->
      readTree imports this url
        (Some {| ReadTreeOptions.etag := etag;
                 ReadTreeOptions.filter := filter |}) net h
      = doReadTree this (archive_url (repo d)) (commit_sha (branch d))
          (filepath (parseGitUrl imports url))
          (credentials this url)
          (Some {| ReadTreeOptions.etag := etag;
                   ReadTreeOptions.filter := filter |}) net h0 /\
      search imports this url (Some {| SearchOptions.etag := etag |}) net h
      = bind (doSearch imports this (trees_url (repo d))
                (archive_url (repo d)) (commit_sha (branch d))
                (filepath (parseGitUrl imports url)) (credentials this url))
             (fun files =>
                ret {| SearchResponse.files := files;
                       SearchResponse.etag := commit_sha (branch d) |})
             net h0) /\
  (forall d h0 e,
      getRepoDetails imports this url net h = (Ok d, h0) ->
      e <> "" ->
      e = commit_sha (branch d) ->
      readTree imports this url
        (Some {| ReadTreeOptions.etag := Some e;
                 ReadTreeOptions.filter := filter |}) net h
      = (Throw (mkError NotModifiedError ""), h0) /\
      search imports this url (Some {| SearchOptions.etag := Some e |}) net h
      = (Throw (mkError NotModifiedError ""), h0)).
Proof.
  split; [|split; [|split; [|split; [|split; [|split; [|split; [|split]]]]]]].
  - unfold readTree, bind.
    destruct (getRepoDetails imports this url net h) as [[d|e] h0];
      reflexivity.
  - unfold readTree, bind.
    destruct (getRepoDetails imports this url net h) as [[d|e] h0];
      reflexivity.
  - reflexivity.
  - reflexivity.
  - apply etag_matches_iff.
  - reflexivity.
  - intros d h0 Hd. split.
    + unfold readTree, bind. now rewrite Hd.
    + unfold search, bind. now rewrite Hd.
  - intros d h0 etag Hd Hetag.
    assert (Hm : etag_matches etag (commit_sha (branch d)) = false).
    { destruct (etag_matches etag (commit_sha (branch d))) eqn:Hm;
        [|reflexivity].
      apply etag_matches_iff in Hm. destruct Hm as (e & He & Hne & Hsha).
      destruct Hetag as [Hn|[Hn|(e' & Hn & Hdiff)]]; congruence. }
    split.
    + unfold readTree, bind. rewrite Hd. cbv beta iota.
      cbn [ReadTreeOptions.etag]. now rewrite Hm.
    + unfold search, bind. rewrite Hd. cbv beta iota.
      cbn [SearchOptions.etag]. now rewrite Hm.
  - intros d h0 e Hd Hne He.
    exact (@not_modified_short_circuit imports this url e filter net h h0 d
             Hd He Hne).
Qed.

Lemma empty_etag_is_absent_etag_witness :
  let net := Fixture.upstream "abc123" {| tree := []; truncated := false |}
               [] "" [] in
  let url := "https://github.com/acme/widgets/tree/main/docs" in
  exists resp h1,
    readTree (Fixture.imports "docs") Fixture.github_reader url None net []
    = (Ok resp, h1) /\
    readTree (Fixture.imports "docs") Fixture.github_reader url
      (Some {| ReadTreeOptions.etag := Some "";
               ReadTreeOptions.filter := None |}) net []
    = (Ok resp, h1) /\
    readTree (Fixture.imports "docs") Fixture.github_reader url
      (Some {| ReadTreeOptions.etag := Some "0ld5ha";
               ReadTreeOptions.filter := None |}) net []
    = (Ok resp, h1).
Proof.
  intros net url. eexists. eexists.
  pose (d := {| repo := Fixture.repo_json;
                branch := {| commit_sha := "abc123" |} |}).
  pose proof (@empty_etag_is_absent_etag
                (Fixture.imports "docs") Fixture.github_reader url
                None net []) as H.
  destruct H as (_ & Hone & _ & _ & _ & _ & _ & Hgo & _).
  assert (Hd : getRepoDetails (Fixture.imports "docs") Fixture.github_reader
                 url net []
               = (Ok d, [request Fixture.api {| headers := [] |};
                         request (Fixture.api ++ "/branches/main")
                           {| headers := [] |}]))
    by reflexivity.
  assert (Hstale : exists e, Some "0ld5ha" = Some e /\
                             e <> commit_sha (branch d)).
  { exists "0ld5ha". split; [reflexivity|discriminate]. }
  destruct (Hgo d _ (Some "0ld5ha") Hd (or_intror (or_intror Hstale)))
    as [Hstale_run _].
  split; [|split; [rewrite Hone|rewrite Hstale_run]]; vm_compute; reflexivity.
Defined.

(* ------------------------------------------------------------------ *)
(** * The etag of the responses *)

Lemma TreeMaterializer_stamps_etag (maxSize : N) :
  stamps_etag (TreeMaterializer maxSize).
Proof.
  intros o net h resp h' H. injection H as <- _. reflexivity.
Qed.

Lemma doReadTree_etag (this : GithubUrlReader)
    (archiveUrl sha subpath : string) (init : RequestInit)
    (options : option ReadTreeOptions.t) (net : Upstream) (h h1 : History)
    (resp : ReadTreeResponse.t) :
  stamps_etag (treeResponseFactory (deps this)) ->
  doReadTree this archiveUrl sha subpath init options net h = (Ok resp, h1) ->
  ReadTreeResponse.etag resp = sha.
Proof.
  intros HF. unfold doReadTree, bind.
  destruct (fetchResponse _ init net h) as [[r|e] h']; [|discriminate].
  intros H. now apply HF in H.
Qed.

(** C5.  A commit id is never the empty string, and the reader's factory
    stamps the etag it is given.  Then the etag of a successful [readTree]
    response, and of a successful [search] response, is the commit sha that
    [getRepoDetails] resolved in that call; and a later [readTree] on the
    same URL that is given this etag, at a moment when the ref still
    resolves to the same commit sha, fails with [NotModifiedError] right
    after the resolution. *)
Theorem etag_round_trip
    (imports : Imports) (this : GithubUrlReader) (url : string)
    (net : Upstream) (h h0 : History) (d : RepoDetails) :
  stamps_etag (treeResponseFactory (deps this)) ->
  getRepoDetails imports this url net h = (Ok d, h0) ->
  commit_sha (branch d) <> "" ->
  (forall options resp h1,
      readTree imports this url options net h = (Ok resp, h1) ->
      ReadTreeResponse.etag resp = commit_sha (branch d)) /\
  (forall options sr h1,
      search imports this url options net h = (Ok sr, h1) ->
      SearchResponse.etag sr = commit_sha (branch d)) /\
  (forall options resp h1 filter net' h' h0' d',
      readTree imports this url options net h = (Ok resp, h1) ->
      getRepoDetails imports this url net' h' = (Ok d', h0') ->
      commit_sha (branch d') = commit_sha (branch d) ->
      readTree imports this url
        (Some {| ReadTreeOptions.etag := Some (ReadTreeResponse.etag resp);
                 ReadTreeOptions.filter := filter |}) net' h'
      = (Throw (mkError NotModifiedError ""), h0')) /\
  (forall options sr h1 filter net' h' h0' d',
      search imports this url options net h = (Ok sr, h1) ->
      getRepoDetails imports this url net' h' = (Ok d', h0') ->
      commit_sha (branch d') = commit_sha (branch d) ->
      readTree imports this url
        (Some {| ReadTreeOptions.etag := Some (SearchResponse.etag sr);
                 ReadTreeOptions.filter := filter |}) net' h'
      = (Throw (mkError NotModifiedError ""), h0')).
Proof.
  intros HF Hd Hsha.
  assert (Htree : forall options resp h1,
      readTree imports this url options net h = (Ok resp, h1) ->
      ReadTreeResponse.etag resp = commit_sha (branch d)).
  { intros options resp h1. unfold readTree, bind. rewrite Hd. simpl.
    destruct (etag_matches _ _); [discriminate|].
    apply doReadTree_etag, HF. }
  assert (Hsearch : forall options sr h1,
      search imports this url options net h = (Ok sr, h1) ->
      SearchResponse.etag sr = commit_sha (branch d)).
  { intros options sr h1. unfold search, bind. rewrite Hd. simpl.
    destruct (etag_matches _ _); [discriminate|].
    destruct (doSearch _ _ _ _ _ _ _ _ _) as [[files|e] h2];
      [|discriminate].
    intros [= <- _]. reflexivity. }
  split; [exact Htree|split; [exact Hsearch|split]].
  - intros options resp h1 filter net' h' h0' d' Hr Hd' Hsame.
    apply Htree in Hr.
    apply (@not_modified_short_circuit imports this url
             (ReadTreeResponse.etag resp) filter net' h' h0' d' Hd');
      congruence.
  - intros options sr h1 filter net' h' h0' d' Hr Hd' Hsame.
    apply Hsearch in Hr.
    apply (@not_modified_short_circuit imports this url
             (SearchResponse.etag sr) filter net' h' h0' d' Hd');
      congruence.
Qed.

Lemma etag_round_trip_witness :
  let net := Fixture.upstream "abc123" {| tree := []; truncated := false |}
               [TarEntry.mk "docs/index.md" [x68; x69]] "" [] in
  let url := "https://github.com/acme/widgets/tree/main/docs" in
  exists resp h1 h2,
    readTree (Fixture.imports "docs") Fixture.github_reader url None net []
    = (Ok resp, h1) /\
    ReadTreeResponse.etag resp = "abc123" /\
    readTree (Fixture.imports "docs") Fixture.github_reader url
      (Some {| ReadTreeOptions.etag := Some (ReadTreeResponse.etag resp);
               ReadTreeOptions.filter := None |}) net h1
    = (Throw (mkError NotModifiedError ""), h2).
Proof.
  intros net url.
  pose (d := {| repo := Fixture.repo_json;
                branch := {| commit_sha := "abc123" |} |}).
  assert (Hread : exists resp h1,
             readTree (Fixture.imports "docs") Fixture.github_reader url None
               net [] = (Ok resp, h1))
    by (eexists; eexists; vm_compute; reflexivity).
  destruct Hread as (resp & h1 & Hread).
  assert (Hd : exists h0,
             getRepoDetails (Fixture.imports "docs") Fixture.github_reader
               url net [] = (Ok d, h0))
    by (eexists; vm_compute; reflexivity).
  destruct Hd as [h0 Hd].
  assert (Hd' : exists h2,
             getRepoDetails (Fixture.imports "docs") Fixture.github_reader
               url net h1 = (Ok d, h2)).
  { eexists. unfold getRepoDetails, bind, fetchJson, fetchResponse, fetch.
    simpl. reflexivity. }
  destruct Hd' as [h2 Hd'].
  assert (Hsha : commit_sha (branch d) <> "") by discriminate.
  destruct (@etag_round_trip (Fixture.imports "docs") Fixture.github_reader
              url net [] h0 d (@TreeMaterializer_stamps_etag 1000000%N) Hd
              Hsha)
    as (Hetag & _ & Hagain & _).
  exists resp, h1, h2. split; [exact Hread|].
  split; [exact (Hetag None resp h1 Hread)|].
  apply (Hagain None resp h1 None net h1 h2 d Hread).
  - exact Hd'.
  - reflexivity.
Defined.

(* ------------------------------------------------------------------ *)
(** * The direct listing of search and its content accessors *)

Section DirectListing.
Variable imports : Imports.
Variable this : GithubUrlReader.
Variables treesUrl archiveUrl sha query : string.
Variable init : RequestInit.

Lemma doSearch_direct (net : Upstream) (h : History) (r : Response)
    (t : GhTreeResponse) :
  net h (tree_request treesUrl sha init) = Responded r ->
  ok r = true ->
  Body.json (body r) = Some (JTree t) ->
  truncated t = false ->
  doSearch imports this treesUrl archiveUrl sha query init net h
  = (Ok (map (listed_file imports init)
           (filter (matching (Minimatch_match imports
                                (strip_leading_slashes query)))
                   (tree t))),
     (h ++ [tree_request treesUrl sha init])%list).
Proof.
  intros Hnet Hok Hj Ht. unfold doSearch, bind.
  unfold tree_request in Hnet.
  rewrite (fetchJson_ok _ _ _ _ Hnet Hok Hj). simpl. rewrite Ht.
  reflexivity.
Qed.

(** The paths of the direct listing: those of the entries of type [blob]
    with a non-empty path and a non-empty url whose path the glob
    matches. *)
Lemma direct_paths (matcher : string -> bool) (items : list TreeItem.t)
    (p : string) :
  In p (paths (map (listed_file imports init) (filter (matching matcher) items)))
  <->
  exists item,
    In item items /\ TreeItem.type item = Some "blob" /\
    TreeItem.path item = Some p /\ p <> "" /\
    truthy (TreeItem.url item) = true /\ matcher p = true.
Proof.
  unfold paths. rewrite map_map. simpl. rewrite in_map_iff. split.
  - intros (item & <- & Hin). apply filter_In in Hin.
    destruct Hin as [Hin Hm]. exists item. unfold matching in Hm.
    destruct item as [[ty|] [pa|] u]; simpl in *; try discriminate;
      [|now rewrite andb_false_r in Hm].
    apply andb_true_iff in Hm. destruct Hm as [Hm Hmatch].
    apply andb_true_iff in Hm. destruct Hm as [Hm Hu].
    apply andb_true_iff in Hm. destruct Hm as [Hty Hp].
    apply String.eqb_eq in Hty. apply negb_true_iff, String.eqb_neq in Hp.
    subst ty. repeat split; auto.
  - intros (item & Hin & Hty & Hp & Hne & Hu & Hm). exists item. split.
    + now rewrite Hp.
    + apply filter_In. split; [assumption|]. unfold matching.
      rewrite Hty, Hp, Hu, Hm. simpl.
      apply String.eqb_neq in Hne. now rewrite Hne.
Qed.

(** One invocation of the accessor of a listed file. *)
Lemma listed_content_ok (item : TreeItem.t) (net : Upstream) (h : History)
    (r : Response) (blob : GhBlobResponse) :
  net h (request (non_null (TreeItem.url item)) init) = Responded r ->
  ok r = true ->
  Body.json (body r) = Some (JBlob blob) ->
  ResponseFile.content (listed_file imports init item) tt net h
  = (Ok (Buffer_from_base64 imports (content blob)),
     (h ++ [request (non_null (TreeItem.url item)) init])%list).
Proof.
  intros Hnet Hok Hj. simpl. unfold bind.
  now rewrite (fetchJson_ok _ _ _ _ Hnet Hok Hj).
Qed.

Lemma listed_content_history (item : TreeItem.t) (net : Upstream)
    (h : History) :
  snd (ResponseFile.content (listed_file imports init item) tt net h)
  = (h ++ [request (non_null (TreeItem.url item)) init])%list.
Proof.
  simpl. unfold bind.
  pose proof (fetchJson_history (non_null (TreeItem.url item)) init net h)
    as H.
  destruct (fetchJson _ init net h) as [[j|e] h']; simpl in *; auto.
  destruct j; assumption.
Qed.

Lemma listed_content_result (item : TreeItem.t) (net1 net2 : Upstream)
    (h1 h2 : History) :
  net1 h1 (request (non_null (TreeItem.url item)) init)
  = net2 h2 (request (non_null (TreeItem.url item)) init) ->
  fst (ResponseFile.content (listed_file imports init item) tt net1 h1)
  = fst (ResponseFile.content (listed_file imports init item) tt net2 h2).
Proof.
  intros H. simpl. unfold bind.
  pose proof (fetchJson_result _ _ net1 net2 h1 h2 H) as Hr.
  destruct (fetchJson _ init net1 h1) as [[j1|e1] h1'];
    destruct (fetchJson _ init net2 h2) as [[j2|e2] h2'];
    simpl in Hr; try discriminate; injection Hr as <-.
  - destruct j1; reflexivity.
  - reflexivity.
Qed.

Lemma invoke_listed_content (item : TreeItem.t) (net : Upstream)
    (r : Response) (blob : GhBlobResponse) (n : nat) (h : History) :
  (forall k, (k < n)%nat ->
     net (h ++ repeat (request (non_null (TreeItem.url item)) init) k)%list
         (request (non_null (TreeItem.url item)) init) = Responded r) ->
  ok r = true ->
  Body.json (body r) = Some (JBlob blob) ->
  invoke_times n (ResponseFile.content (listed_file imports init item)) net h
  = (Ok (repeat (Buffer_from_base64 imports (content blob)) n),
     (h ++ repeat (request (non_null (TreeItem.url item)) init) n)%list).
Proof.
  intros Hnet Hok Hj. revert h Hnet.
  induction n as [|n IH]; intros h Hnet.
  - simpl. unfold ret. now rewrite app_nil_r.
  - cbn [invoke_times]. unfold bind at 1.
    rewrite (@listed_content_ok item net h r blob); auto.
    + unfold bind at 1. rewrite IH.
      * simpl. unfold ret. rewrite <- app_assoc. reflexivity.
      * intros k Hk. rewrite <- app_assoc. apply (Hnet (S k)). lia.
    + specialize (Hnet 0%nat). simpl in Hnet. rewrite app_nil_r in Hnet.
      apply Hnet. lia.
Qed.
End DirectListing.

(** C7.  On the direct-listing path, [doSearch] returns files whose content
    accessor is a deferred computation: each invocation issues the blob
    request of the file and nothing else; its result depends on the
    upstream's answer to that request only, so two invocations that get the
    same answer return the same result; on a 2xx answer with a blob payload
    the result is the base64-decoded content; and [n] invocations in a row
    against an upstream that answers the same every time return [n] times
    that buffer after [n] requests: nothing is kept between invocations. *)
Theorem content_accessor_is_repeatable
    (imports : Imports) (this : GithubUrlReader)
    (treesUrl archiveUrl sha query : string) (init : RequestInit)
    (net : Upstream) (h : History) (r : Response) (t : GhTreeResponse) :
  net h (tree_request treesUrl sha init) = Responded r ->
  ok r = true ->
  Body.json (body r) = Some (JTree t) ->
  truncated t = false ->
  exists files,
    doSearch imports this treesUrl archiveUrl sha query init net h
    = (Ok files, (h ++ [tree_request treesUrl sha init])%list) /\
    forall f, In f files ->
      exists blobUrl,
        (forall net' h',
            snd (ResponseFile.content f tt net' h')
            = (h' ++ [request blobUrl init])%list) /\
        (forall net1 h1 net2 h2,
            net1 h1 (request blobUrl init) = net2 h2 (request blobUrl init) ->
            fst (ResponseFile.content f tt net1 h1)
            = fst (ResponseFile.content f tt net2 h2)) /\
        (forall net' h' rb blob,
            net' h' (request blobUrl init) = Responded rb ->
            ok rb = true ->
            Body.json (body rb) = Some (JBlob blob) ->
            ResponseFile.content f tt net' h'
            = (Ok (Buffer_from_base64 imports (content blob)),
               (h' ++ [request blobUrl init])%list)) /\
        (forall n net' h' rb blob,
            (forall k, (k < n)%nat ->
               net' (h' ++ repeat (request blobUrl init) k)%list
                    (request blobUrl init) = Responded rb) ->
            ok rb = true ->
            Body.json (body rb) = Some (JBlob blob) ->
            invoke_times n (ResponseFile.content f) net' h'
            = (Ok (repeat (Buffer_from_base64 imports (content blob)) n),
               (h' ++ repeat (request blobUrl init) n)%list)).
Proof.
  intros Hnet Hok Hj Ht. eexists. split.
  - apply (doSearch_direct imports this treesUrl archiveUrl sha query init
             net h Hnet Hok Hj Ht).
  - intros f Hin. apply in_map_iff in Hin. destruct Hin as (item & <- & _).
    exists (non_null (TreeItem.url item)). split; [|split; [|split]].
    + intros net' h'. apply listed_content_history.
    + intros net1 h1 net2 h2. apply listed_content_result.
    + intros net' h' rb blob. apply listed_content_ok.
    + intros n net' h' rb blob. apply invoke_listed_content.
Qed.

Lemma content_accessor_is_repeatable_witness :
  let item := TreeItem.mk (Some "blob") (Some "README.md")
                (Some (Fixture.api ++ "/git/blobs/1")) in
  let listing := {| tree := [item]; truncated := false |} in
  let net := Fixture.upstream "abc123" listing [] "aGk=" [] in
  let init := {| headers := [] |} in
  let treesUrl := trees_url Fixture.repo_json in
  let archiveUrl := archive_url Fixture.repo_json in
  net [] (tree_request treesUrl "abc123" init)
  = Responded (Fixture.ok_response (Fixture.json_body (JTree listing))) /\
  exists files,
    doSearch (Fixture.imports "README.md") Fixture.github_reader
      treesUrl archiveUrl "abc123" "README.md" init net []
    = (Ok files, [tree_request treesUrl "abc123" init]) /\
    paths files = ["README.md"].
Proof.
  intros item listing net init treesUrl archiveUrl.
  assert (Hnet : net [] (tree_request treesUrl "abc123" init)
                 = Responded (Fixture.ok_response
                                (Fixture.json_body (JTree listing))))
    by reflexivity.
  split; [exact Hnet|].
  destruct (@content_accessor_is_repeatable
              (Fixture.imports "README.md") Fixture.github_reader
              treesUrl archiveUrl "abc123" "README.md" init net []
              _ listing Hnet eq_refl eq_refl eq_refl) as (files & Hrun & _).
  exists files. split; [exact Hrun|].
  vm_compute in Hrun. injection Hrun as <-. reflexivity.
Defined.

(* ------------------------------------------------------------------ *)
(** * The two strategies of search *)

Lemma substring_all (s : string) : substring 0 (String.length s) s = s.
Proof.
  induction s as [|c s IH]; [reflexivity|]. simpl. now rewrite IH.
Qed.

Lemma relative_path_root (p : string) : relative_path "" p = Some p.
Proof.
  unfold relative_path. simpl. destruct p as [|c p]; [reflexivity|].
  simpl. now rewrite substring_all.
Qed.

(** At the root of the archive the materializer exposes the entries whose
    path passes the filter. *)
Lemma extract_root_paths (f : string -> bool) (entries : list TarEntry.t) :
  paths (extract "" (Some f) entries)
  = filter f (map TarEntry.path entries).
Proof.
  unfold paths. induction entries as [|e entries IH]; [reflexivity|].
  cbn [extract map filter]. rewrite relative_path_root. simpl.
  destruct (f (TarEntry.path e)); simpl; now rewrite IH.
Qed.

Section Fallback.
Variable imports : Imports.
Variable this : GithubUrlReader.
Variables treesUrl archiveUrl sha query : string.
Variable init : RequestInit.
Variable maxSize : N.
Hypothesis Hfactory :
  treeResponseFactory (deps this) = TreeMaterializer maxSize.

Lemma doSearch_fallback (net : Upstream) (h : History)
    (r ra : Response) (t : GhTreeResponse) (entries : list TarEntry.t) :
  net h (tree_request treesUrl sha init) = Responded r ->
  ok r = true ->
  Body.json (body r) = Some (JTree t) ->
  truncated t = true ->
  net (h ++ [tree_request treesUrl sha init])%list
      (archive_request archiveUrl sha init) = Responded ra ->
  ok ra = true ->
  Body.tar (body ra) = Some entries ->
  (total_size entries <= maxSize)%N ->
  doSearch imports this treesUrl archiveUrl sha query init net h
  = (Ok (extract "" (Some (Minimatch_match imports
                             (strip_leading_slashes query))) entries),
     (h ++ [tree_request treesUrl sha init;
            archive_request archiveUrl sha init])%list).
Proof.
  intros Hnet Hok Hj Ht Hnet' Hok' Htar Hsize. unfold doSearch, bind.
  unfold tree_request in Hnet.
  rewrite (fetchJson_ok _ _ _ _ Hnet Hok Hj).
  cbn [as_tree ret negb]. rewrite Ht. cbn [negb].
  unfold doReadTree, bind. unfold archive_request, tree_request in Hnet'.
  rewrite (fetchResponse_ok _ _ _ _ Hnet' Hok'). rewrite Hfactory.
  cbn -[extract N.ltb total_size].
  rewrite Htar.
  assert (Hlt : (maxSize <? total_size entries)%N = false)
    by (apply N.ltb_ge; assumption).
  rewrite Hlt. unfold ret. rewrite <- app_assoc. reflexivity.
Qed.
End Fallback.

(** C1 (as amended).  The upstream's tree listing is not truncated and lists
    the entries [commit]: [doSearch] returns files whose paths are exactly
    the paths of the entries of type [blob] that carry a non-empty path and
    a non-empty url and whose path the glob matches.  Against an upstream
    that truncates the listing and serves an archive within the
    materializer's limit, [doSearch] returns what the materializer extracts
    under the glob; when every blob entry of [commit] carries a path and a
    url and the archive holds exactly the paths of the blob entries of
    [commit], the two strategies return the same set of paths. *)
Theorem search_strategies_agree
    (imports : Imports) (this : GithubUrlReader)
    (treesUrl archiveUrl sha query : string) (init : RequestInit)
    (commit : list TreeItem.t)
    (net1 : Upstream) (h1 : History) (r1 : Response) :
  net1 h1 (tree_request treesUrl sha init) = Responded r1 ->
  ok r1 = true ->
  Body.json (body r1) = Some (JTree {| tree := commit; truncated := false |}) ->
  exists files1,
    doSearch imports this treesUrl archiveUrl sha query init net1 h1
    = (Ok files1, (h1 ++ [tree_request treesUrl sha init])%list) /\
    (forall p,
        In p (paths files1) <->
        exists item,
          In item commit /\ TreeItem.type item = Some "blob" /\
          TreeItem.path item = Some p /\ p <> "" /\
          truthy (TreeItem.url item) = true /\
          Minimatch_match imports (strip_leading_slashes query) p = true) /\
    (forall (maxSize : N) (net2 : Upstream) (h2 : History)
            (r2 ra : Response) (listed : list TreeItem.t)
            (entries : list TarEntry.t),
        treeResponseFactory (deps this) = TreeMaterializer maxSize ->
        net2 h2 (tree_request treesUrl sha init) = Responded r2 ->
        ok r2 = true ->
        Body.json (body r2)
        = Some (JTree {| tree := listed; truncated := true |}) ->
        net2 (h2 ++ [tree_request treesUrl sha init])%list
             (archive_request archiveUrl sha init) = Responded ra ->
        ok ra = true ->
        Body.tar (body ra) = Some entries ->
        (total_size entries <= maxSize)%N ->
        exists files2,
          doSearch imports this treesUrl archiveUrl sha query init net2 h2
          = (Ok files2,
             (h2 ++ [tree_request treesUrl sha init;
                     archive_request archiveUrl sha init])%list) /\
          (forall p,
              In p (paths files2) <->
              In p (map TarEntry.path entries) /\
              Minimatch_match imports (strip_leading_slashes query) p = true) /\
          ((forall item,
               In item commit -> TreeItem.type item = Some "blob" ->
               truthy (TreeItem.path item) = true /\
               truthy (TreeItem.url item) = true) ->
           (forall p,
               In p (map TarEntry.path entries) <->
               exists item,
                 In item commit /\ TreeItem.type item = Some "blob" /\
                 TreeItem.path item = Some p) ->
           forall p, In p (paths files2) <-> In p (paths files1))).
Proof.
  intros Hnet1 Hok1 Hj1. eexists. split; [|split].
  - apply (doSearch_direct imports this treesUrl archiveUrl sha query init
             net1 h1 Hnet1 Hok1 Hj1 eq_refl).
  - intros p. apply direct_paths.
  - intros maxSize net2 h2 r2 ra listed entries HF Hnet2 Hok2 Hj2 Hnet2' Hoka
           Htar Hsize.
    eexists. split; [|split].
    + eapply doSearch_fallback; eauto.
    + intros p. rewrite extract_root_paths. apply filter_In.
    + intros Hwf Hcoh p. rewrite extract_root_paths, filter_In, direct_paths.
      simpl. rewrite Hcoh. split.
      * intros [(item & Hin & Hty & Hp) Hm]. exists item.
        destruct (Hwf item Hin Hty) as [Hpath Hurl].
        repeat split; auto.
        rewrite Hp in Hpath. simpl in Hpath.
        now apply negb_true_iff, String.eqb_neq in Hpath.
      * intros (item & Hin & Hty & Hp & _ & _ & Hm). eauto.
Qed.

Lemma search_strategies_agree_witness :
  let commit :=
    [TreeItem.mk (Some "blob") (Some "README.md")
       (Some (Fixture.api ++ "/git/blobs/1"));
     TreeItem.mk (Some "tree") (Some "docs")
       (Some (Fixture.api ++ "/git/trees/2"));
     TreeItem.mk (Some "blob") (Some "docs/index.md")
       (Some (Fixture.api ++ "/git/blobs/3"))] in
  let entries := [TarEntry.mk "README.md" [x68; x69];
                  TarEntry.mk "docs/index.md" [x68; x6f]] in
  let net1 := Fixture.upstream "abc123"
                {| tree := commit; truncated := false |} entries "aGk=" [] in
  let net2 := Fixture.upstream "abc123"
                {| tree := []; truncated := true |} entries "aGk=" [] in
  let init := {| headers := [] |} in
  let treesUrl := trees_url Fixture.repo_json in
  let archiveUrl := archive_url Fixture.repo_json in
  exists files1 files2 h1 h2,
    doSearch (Fixture.imports "README.md") Fixture.github_reader
      treesUrl archiveUrl "abc123" "README.md" init net1 [] = (Ok files1, h1) /\
    doSearch (Fixture.imports "README.md") Fixture.github_reader
      treesUrl archiveUrl "abc123" "README.md" init net2 [] = (Ok files2, h2) /\
    paths files1 = ["README.md"] /\
    forall p, In p (paths files2) <-> In p (paths files1).
Proof.
  intros commit entries net1 net2 init treesUrl archiveUrl.
  destruct (@search_strategies_agree
              (Fixture.imports "README.md") Fixture.github_reader
              treesUrl archiveUrl "abc123" "README.md" init commit net1 []
              (Fixture.ok_response (Fixture.json_body
                 (JTree {| tree := commit; truncated := false |})))
              eq_refl eq_refl eq_refl)
    as (files1 & Hrun1 & _ & Hfallback).
  destruct (Hfallback 1000000%N net2 []
              (Fixture.ok_response (Fixture.json_body
                 (JTree {| tree := []; truncated := true |})))
              (Fixture.ok_response
                 {| Body.bytes := []; Body.json := None;
                    Body.tar := Some entries |})
              [] entries eq_refl eq_refl eq_refl eq_refl eq_refl eq_refl
              eq_refl)
    as (files2 & Hrun2 & _ & Hagree).
  { vm_compute. discriminate. }
  exists files1, files2. eexists. eexists.
  split; [exact Hrun1|]. split; [exact Hrun2|]. split.
  - vm_compute in Hrun1. injection Hrun1 as <-. reflexivity.
  - apply Hagree.
    + intros item [<-|[<-|[<-|[]]]] Hty; try discriminate Hty;
        split; reflexivity.
    + intros p. split.
      * intros [<-|[<-|[]]]; eexists; split;
          [left; reflexivity|split; reflexivity
          |right; right; left; reflexivity|split; reflexivity].
      * intros (item & [<-|[<-|[<-|[]]]] & Hty & Hp);
          try discriminate Hty; injection Hp as <-; simpl; auto.
Defined.

(** C1 (counterexample).  The listing is not truncated and has one entry of
    type [blob] whose path the glob matches and which carries no url:
    [doSearch] returns no file.  The entry is a blob-type entry whose path
    matches, and the fallback over the archive of the same commit returns
    its path: the two strategies differ. *)
Lemma search_drops_blob_without_url :
  let item := TreeItem.mk (Some "blob") (Some "README.md") None in
  let entries := [TarEntry.mk "README.md" [x68; x69]] in
  let net1 := Fixture.upstream "abc123"
                {| tree := [item]; truncated := false |} entries "" [] in
  let net2 := Fixture.upstream "abc123"
                {| tree := []; truncated := true |} entries "" [] in
  let init := {| headers := [] |} in
  let treesUrl := trees_url Fixture.repo_json in
  let archiveUrl := archive_url Fixture.repo_json in
  TreeItem.type item = Some "blob" /\
  Minimatch_match (Fixture.imports "README.md") "README.md" "README.md" = true /\
  exists files1 h1 files2 h2,
    doSearch (Fixture.imports "README.md") Fixture.github_reader
      treesUrl archiveUrl "abc123" "README.md" init net1 [] = (Ok files1, h1) /\
    paths files1 = [] /\
    doSearch (Fixture.imports "README.md") Fixture.github_reader
      treesUrl archiveUrl "abc123" "README.md" init net2 [] = (Ok files2, h2) /\
    paths files2 = ["README.md"].
Proof.
  intros item entries net1 net2 init treesUrl archiveUrl.
  split; [reflexivity|]. split; [reflexivity|].
  eexists. eexists. eexists. eexists.
  split; [vm_compute; reflexivity|]. split; [reflexivity|].
  split; [vm_compute; reflexivity|]. reflexivity.
Qed.

(* ------------------------------------------------------------------ *)
(** * Further properties: the fetch layer *)

(** An answer outside 2xx makes [fetchResponse] and [fetchJson] throw. *)
Lemma fetch_failure (url : string) (init : RequestInit)
    (net : Upstream) (h : History) (r : Response) :
  net h (request url init) = Responded r -> ok r = false ->
  fetchResponse url init net h
  = (Throw (request_failed url r), (h ++ [request url init])%list) /\
  fetchJson url init net h
  = (Throw (request_failed url r), (h ++ [request url init])%list).
Proof.
  intros Hnet Hok.
  assert (Hfail : fetchResponse url init net h
                  = (Throw (request_failed url r),
                     (h ++ [request url init])%list)).
  { unfold fetchResponse, bind, fetch, request_failed.
    fold (request url init). rewrite Hnet, Hok. simpl.
    destruct (status r =? 404)%Z; reflexivity. }
  split; [exact Hfail|]. unfold fetchJson, bind. now rewrite Hfail.
Qed.

(** What a successful [fetchResponse] or [fetchJson] tells about the
    upstream's answer. *)
Lemma successful_fetch
    (url : string) (init : RequestInit) (net : Upstream) (h : History) :
  (forall r h1,
      fetchResponse url init net h = (Ok r, h1) ->
      net h (request url init) = Responded r /\ ok r = true /\
      h1 = (h ++ [request url init])%list) /\
  (forall j h1,
      fetchJson url init net h = (Ok j, h1) ->
      exists r,
        net h (request url init) = Responded r /\ ok r = true /\
        Body.json (body r) = Some j /\
        h1 = (h ++ [request url init])%list).
Proof.
  assert (Hresp : forall r h1,
      fetchResponse url init net h = (Ok r, h1) ->
      net h (request url init) = Responded r /\ ok r = true /\
      h1 = (h ++ [request url init])%list).
  { intros r h1. unfold fetchResponse, bind, fetch. fold (request url init).
    destruct (net h (request url init)) as [e|r']; [discriminate|].
    destruct (ok r') eqn:Hok; simpl.
    - intros [= <- <-]. auto.
    - destruct (status r' =? 404)%Z; discriminate. }
  split; [exact Hresp|].
  intros j h1. unfold fetchJson, bind.
  destruct (fetchResponse url init net h) as [[r|e] h'] eqn:Hr;
    [|discriminate].
  destruct (Hresp r h' eq_refl) as (Hnet & Hok & ->).
  unfold json. destruct (Body.json (body r)) as [j'|] eqn:Hj;
    [|discriminate].
  intros [= <- <-]. exists r. auto.
Qed.

(** X1.  [fetchResponse] hands back only answers in the range 2xx, and
    [fetchJson] only the JSON payload of such an answer; each has then
    issued exactly the one request.  For an answer outside 2xx both throw
    the same error: [NotFoundError] for status 404 and a plain [Error]
    otherwise, with the URL, the status and the status text in the
    message. *)
Theorem fetch_returns_only_2xx
    (url : string) (init : RequestInit) (net : Upstream) (h : History) :
  (forall r h1,
      fetchResponse url init net h = (Ok r, h1) ->
      net h (request url init) = Responded r /\ ok r = true /\
      h1 = (h ++ [request url init])%list) /\
  (forall j h1,
      fetchJson url init net h = (Ok j, h1) ->
      exists r,
        net h (request url init) = Responded r /\ ok r = true /\
        Body.json (body r) = Some j /\
        h1 = (h ++ [request url init])%list) /\
  (forall r,
      net h (request url init) = Responded r -> ok r = false ->
      fetchResponse url init net h
      = (Throw (request_failed url r), (h ++ [request url init])%list) /\
      fetchJson url init net h
      = (Throw (request_failed url r), (h ++ [request url init])%list)).
Proof.
  destruct (successful_fetch url init net h) as (Hresp & Hjson).
  split; [exact Hresp|split; [exact Hjson|]].
  intros r Hnet Hok. now apply fetch_failure.
Qed.

(* ------------------------------------------------------------------ *)
(** * Further properties: read *)

(** X2.  Once the fetch URL is built, [read] fails with [NotFoundError]
    exactly when the upstream answers with status 404: no other status and
    no transport failure is reported as not found. *)
Theorem read_throws_not_found_exactly_on_404
    (imports : Imports) (this : GithubUrlReader) (url ghUrl : string)
    (net : Upstream) (h : History) :
  getGitHubFileFetchUrl imports url (config this) = Ok ghUrl ->
  ((exists m, fst (read imports this url net h)
              = Throw (mkError NotFoundError m)) <->
   (exists r, net h (read_request this url ghUrl) = Responded r /\
              status r = 404%Z)).
Proof.
  intros Hg. now apply read_not_found_iff.
Qed.

Lemma read_throws_not_found_exactly_on_404_witness :
  let net : Upstream := fun _ _ => Responded Fixture.not_found in
  exists m,
    fst (read (Fixture.imports "README.md") Fixture.github_reader
           "https://github.com/acme/widgets/blob/main/README.md" net [])
    = Throw (mkError NotFoundError m).
Proof.
  intros net.
  apply (proj2 (@read_throws_not_found_exactly_on_404
                  (Fixture.imports "README.md") Fixture.github_reader
                  "https://github.com/acme/widgets/blob/main/README.md"
                  "https://raw.githubusercontent.com/acme/widgets/main/README.md"
                  net [] eq_refl)).
  exists Fixture.not_found. split; reflexivity.
Defined.

(** Whatever the upstream answers, [read] issues the one request. *)
Lemma read_history
    (imports : Imports) (this : GithubUrlReader) (url ghUrl : string)
    (net : Upstream) (h : History) :
  getGitHubFileFetchUrl imports url (config this) = Ok ghUrl ->
  snd (read imports this url net h)
  = (h ++ [read_request this url ghUrl])%list.
Proof.
  intros Hg.
  destruct (net h (read_request this url ghUrl)) as [e|r] eqn:Hnet.
  - now rewrite (read_rejected imports this url Hg net h Hnet).
  - destruct (ok r) eqn:Hok.
    + now rewrite (read_ok imports this url Hg net h Hnet Hok).
    + now rewrite (read_not_ok imports this url Hg net h Hnet Hok).
Qed.

(** X3.  [read] issues at most one request.  When the fetch URL cannot be
    built the error of [getGitHubFileFetchUrl] is thrown as it is and no
    request is issued; otherwise exactly one request is issued, to the fetch
    URL, whatever the upstream answers. *)
Theorem read_issues_at_most_one_request
    (imports : Imports) (this : GithubUrlReader) (url : string)
    (net : Upstream) (h : History) :
  (forall e,
      getGitHubFileFetchUrl imports url (config this) = Throw e ->
      read imports this url net h = (Throw e, h)) /\
  (forall ghUrl,
      getGitHubFileFetchUrl imports url (config this) = Ok ghUrl ->
      snd (read imports this url net h)
      = (h ++ [read_request this url ghUrl])%list).
Proof.
  split.
  - intros e He. unfold read, bind, lift. now rewrite He.
  - intros ghUrl Hg. now apply read_history.
Qed.

(** X4.  When the upstream answers 2xx with a body of ASCII bytes, [read]
    returns exactly the bytes of the body. *)
Theorem read_returns_ascii_body
    (imports : Imports) (this : GithubUrlReader) (url ghUrl : string)
    (net : Upstream) (h : History) (r : Response) :
  getGitHubFileFetchUrl imports url (config this) = Ok ghUrl ->
  net h (read_request this url ghUrl) = Responded r ->
  ok r = true ->
  Forall (fun b => (Byte.to_N b < 128)%N) (Body.bytes (body r)) ->
  read imports this url net h
  = (Ok (Body.bytes (body r)), (h ++ [read_request this url ghUrl])%list).
Proof.
  intros Hg Hnet Hok Hascii.
  rewrite (read_ok imports this url Hg net h Hnet Hok).
  now rewrite (utf8_roundtrip_ascii Hascii).
Qed.

Lemma read_returns_ascii_body_witness :
  let net := Fixture.upstream "abc123" {| tree := []; truncated := false |}
               [] "" [x68; x69; x0a] in
  exists h1,
    read (Fixture.imports "README.md") Fixture.github_reader
      "https://github.com/acme/widgets/blob/main/README.md" net []
    = (Ok [x68; x69; x0a], h1).
Proof.
  intros net. eexists.
  apply (@read_returns_ascii_body (Fixture.imports "README.md")
           Fixture.github_reader
           "https://github.com/acme/widgets/blob/main/README.md"
           "https://raw.githubusercontent.com/acme/widgets/main/README.md"
           net []
           (Fixture.ok_response
              {| Body.bytes := [x68; x69; x0a]; Body.json := None;
                 Body.tar := None |})
           eq_refl eq_refl eq_refl).
  repeat constructor.
Defined.

Lemma get_set_header (key value : string) (hs : Headers) :
  get_header key (set_header key value hs) = Some value.
Proof.
  unfold get_header. induction hs as [|[k v] hs IH]; simpl.
  - now rewrite String.eqb_refl.
  - destruct (String.eqb_spec k key) as [->|Hne]; simpl.
    + now rewrite String.eqb_refl.
    + apply String.eqb_neq in Hne. now rewrite Hne.
Qed.

Lemma get_set_other_header (key value other : string) (hs : Headers) :
  other <> key ->
  get_header other (set_header key value hs) = get_header other hs.
Proof.
  intros Hne. unfold get_header. induction hs as [|[k v] hs IH]; simpl.
  - apply not_eq_sym, String.eqb_neq in Hne. now rewrite Hne.
  - destruct (String.eqb_spec k key) as [->|Hk]; simpl.
    + apply not_eq_sym, String.eqb_neq in Hne. now rewrite Hne.
    + destruct (k =? other); [reflexivity|exact IH].
Qed.

(** X5.  The request of [read] goes to the fetch URL and asks for the raw
    media type whatever the credentials say: its [Accept] header is
    [application/vnd.github.v3.raw] also when the credentials carry an
    [Accept] header of their own, and every other header has the value the
    credentials give it. *)
Theorem read_request_accepts_raw
    (imports : Imports) (this : GithubUrlReader) (url ghUrl : string)
    (net : Upstream) (h : History) :
  getGitHubFileFetchUrl imports url (config this) = Ok ghUrl ->
  exists req,
    snd (read imports this url net h) = (h ++ [req])%list /\
    request_url req = ghUrl /\
    get_header "Accept" (headers (request_init req))
    = Some "application/vnd.github.v3.raw" /\
    forall key,
      key <> "Accept" ->
      get_header key (headers (request_init req))
      = get_header key
          (headers (getCredentials (credentialsProvider (deps this)) url)).
Proof.
  intros Hg. exists (read_request this url ghUrl).
  split; [now apply read_history with (imports := imports)|].
  split; [reflexivity|split].
  - apply get_set_header.
  - intros key Hne. now apply get_set_other_header.
Qed.

Lemma read_request_accepts_raw_witness :
  let this :=
    {| config := Fixture.github_com;
       deps := {| treeResponseFactory := TreeMaterializer 1000000;
                  credentialsProvider :=
                    {| getCredentials := fun _ =>
                         {| headers := [("Accept", "text/html");
                                        ("Authorization", "token t")] |} |}
               |} |} in
  let net := Fixture.upstream "abc123" {| tree := []; truncated := false |}
               [] "" [] in
  snd (read (Fixture.imports "README.md") this
         "https://github.com/acme/widgets/blob/main/README.md" net [])
  = [request "https://raw.githubusercontent.com/acme/widgets/main/README.md"
       {| headers := [("Accept", "application/vnd.github.v3.raw");
                      ("Authorization", "token t")] |}].
Proof.
  intros this net.
  destruct (@read_request_accepts_raw (Fixture.imports "README.md") this
              "https://github.com/acme/widgets/blob/main/README.md"
              "https://raw.githubusercontent.com/acme/widgets/main/README.md"
              net [] eq_refl) as (req & Hreq & _).
  reflexivity.
Defined.

(* ------------------------------------------------------------------ *)
(** * Further properties: resolution, readTree and search end to end *)

(** X6.  A failure of the resolution is the failure of the call: when
    [getRepoDetails] throws, [readTree] and [search] throw the same error
    after the same requests, whatever their options are; no etag turns it
    into [NotModifiedError].  When the repository request is answered
    outside 2xx, the resolution throws [NotFoundError] (status 404) or a
    plain [Error] after that one request: the branch is not requested. *)
Theorem resolution_failure_is_the_failure_of_the_call
    (imports : Imports) (this : GithubUrlReader) (url : string)
    (net : Upstream) (h : History) :
  (forall e h0,
      getRepoDetails imports this url net h = (Throw e, h0) ->
      (forall options,
          readTree imports this url options net h = (Throw e, h0)) /\
      (forall options,
          search imports this url options net h = (Throw e, h0))) /\
  (forall r,
      net h (repo_request imports this url) = Responded r ->
      ok r = false ->
      getRepoDetails imports this url net h
      = (Throw (request_failed
                  (request_url (repo_request imports this url)) r),
         (h ++ [repo_request imports this url])%list)).
Proof.
  split.
  - intros e h0 Hd. split; intros options.
    + unfold readTree, bind. now rewrite Hd.
    + unfold search, bind. now rewrite Hd.
  - intros r Hnet Hok. unfold getRepoDetails, bind.
    unfold repo_request, credentials in Hnet.
    destruct (@fetch_failure _ _ net h r Hnet Hok) as [_ Hj].
    rewrite Hj. reflexivity.
Qed.

(** X7.  Past the etag test, [readTree] requests the archive of the commit
    sha that the resolution returned, with the credentials of the URL; these
    three requests are all it issues itself.  A transport failure or an
    answer outside 2xx is thrown and the factory is not consulted; for a 2xx
    answer the result is the factory's, given the answer's body, the file
    path of the URL as subpath, the commit sha as etag and the filter of the
    options. *)
Theorem readTree_fetches_the_resolved_commit
    (imports : Imports) (this : GithubUrlReader) (url : string)
    (options : option ReadTreeOptions.t)
    (net : Upstream) (h h0 : History) (d : RepoDetails) :
  getRepoDetails imports this url net h = (Ok d, h0) ->
  etag_matches
    (match options with
     | Some o => ReadTreeOptions.etag o
     | None => None
     end) (commit_sha (branch d)) = false ->
  let areq := archive_request (archive_url (repo d)) (commit_sha (branch d))
                (credentials this url) in
  h0 = (h ++ [repo_request imports this url;
              branch_request imports this url (repo d)])%list /\
  match net h0 areq with
  | Rejected e =>
      readTree imports this url options net h
      = (Throw e, (h0 ++ [areq])%list)
  | Responded ra =>
      if ok ra then
        readTree imports this url options net h
        = fromTarArchive (treeResponseFactory (deps this))
            {| FromTarArchive.stream := body ra;
               FromTarArchive.subpath := filepath (parseGitUrl imports url);
               FromTarArchive.etag := commit_sha (branch d);
               FromTarArchive.filter :=
                 match options with
                 | Some o => ReadTreeOptions.filter o
                 | None => None
                 end |}
            net (h0 ++ [areq])%list
      else
        readTree imports this url options net h
        = (Throw (request_failed (request_url areq) ra), (h0 ++ [areq])%list)
  end.
Proof.
  intros Hd Hetag areq.
  split; [now apply getRepoDetails_history with (net := net)|].
  unfold readTree, bind. rewrite Hd. cbv beta iota. rewrite Hetag.
  unfold doReadTree, bind. fold (credentials this url).
  destruct (net h0 areq) as [e|ra] eqn:Hnet.
  - unfold fetchResponse, bind, fetch.
    unfold areq, archive_request, request in Hnet. now rewrite Hnet.
  - destruct (ok ra) eqn:Hok.
    + unfold areq, archive_request in Hnet.
      now rewrite (fetchResponse_ok _ _ _ _ Hnet Hok).
    + unfold areq, archive_request in Hnet.
      destruct (@fetch_failure _ _ net h0 ra Hnet Hok) as [Hf _].
      now rewrite Hf.
Qed.

Lemma readTree_fetches_the_resolved_commit_witness :
  let net := Fixture.upstream "abc123" {| tree := []; truncated := false |}
               [TarEntry.mk "docs/index.md" [x68; x69]] "" [] in
  let url := "https://github.com/acme/widgets/tree/main/docs" in
  exists resp,
    readTree (Fixture.imports "docs") Fixture.github_reader url None net []
    = (Ok resp,
       [request Fixture.api {| headers := [] |};
        request (Fixture.api ++ "/branches/main") {| headers := [] |};
        request (Fixture.api ++ "/tarball/abc123") {| headers := [] |}]).
Proof.
  intros net url.
  pose (d := {| repo := Fixture.repo_json;
                branch := {| commit_sha := "abc123" |} |}).
  destruct (@readTree_fetches_the_resolved_commit
              (Fixture.imports "docs") Fixture.github_reader url None net []
              [request Fixture.api {| headers := [] |};
               request (Fixture.api ++ "/branches/main") {| headers := [] |}]
              d eq_refl eq_refl) as [_ Hrun].
  vm_compute in Hrun. eexists. vm_compute. exact Hrun.
Defined.

(** X13.  Past the etag test, [search] takes the file path of the URL as
    the glob and requests the recursive tree of the resolved commit.  When
    the listing is not truncated it requests nothing more: after the
    repository, branch and tree requests it returns the listed files that
    match, however many they are, with the commit sha as etag; no blob and
    no archive is fetched by the search itself. *)
Theorem search_lists_without_fetching_content
    (imports : Imports) (this : GithubUrlReader) (url : string)
    (options : option SearchOptions.t)
    (net : Upstream) (h h0 : History) (d : RepoDetails)
    (r : Response) (t : GhTreeResponse) :
  getRepoDetails imports this url net h = (Ok d, h0) ->
  etag_matches
    (match options with
     | Some o => SearchOptions.etag o
     | None => None
     end) (commit_sha (branch d)) = false ->
  let treq := tree_request (trees_url (repo d)) (commit_sha (branch d))
                (credentials this url) in
  net h0 treq = Responded r ->
  ok r = true ->
  Body.json (body r) = Some (JTree t) ->
  truncated t = false ->
  search imports this url options net h
  = (Ok {| SearchResponse.files :=
             map (listed_file imports (credentials this url))
               (filter (matching
                          (Minimatch_match imports
                             (strip_leading_slashes
                                (filepath (parseGitUrl imports url)))))
                       (tree t));
           SearchResponse.etag := commit_sha (branch d) |},
     (h ++ [repo_request imports this url;
            branch_request imports this url (repo d); treq])%list).
Proof.
  intros Hd Hetag treq Hnet Hok Hj Ht.
  pose proof (getRepoDetails_history imports this url net h Hd) as Hh0.
  unfold search, bind. rewrite Hd. cbv beta iota. rewrite Hetag.
  fold (credentials this url).
  rewrite (doSearch_direct imports this (trees_url (repo d))
             (archive_url (repo d)) (commit_sha (branch d))
             (filepath (parseGitUrl imports url)) (credentials this url)
             net h0 Hnet Hok Hj Ht).
  unfold ret. subst h0. rewrite <- app_assoc. reflexivity.
Qed.

Lemma search_lists_without_fetching_content_witness :
  let listing :=
    {| tree := [TreeItem.mk (Some "blob") (Some "README.md")
                  (Some (Fixture.api ++ "/git/blobs/1"));
                TreeItem.mk (Some "blob") (Some "LICENSE")
                  (Some (Fixture.api ++ "/git/blobs/2"))];
       truncated := false |} in
  let net := Fixture.upstream "abc123" listing [] "aGk=" [] in
  let url := "https://github.com/acme/widgets/blob/main/README.md" in
  exists sr,
    search (Fixture.imports "/README.md") Fixture.github_reader url None net []
    = (Ok sr,
       [request Fixture.api {| headers := [] |};
        request (Fixture.api ++ "/branches/main") {| headers := [] |};
        request (Fixture.api ++ "/git/trees/abc123?recursive=true")
          {| headers := [] |}]) /\
    paths (SearchResponse.files sr) = ["README.md"] /\
    SearchResponse.etag sr = "abc123".
Proof.
  intros listing net url.
  pose (d := {| repo := Fixture.repo_json;
                branch := {| commit_sha := "abc123" |} |}).
  pose proof (@search_lists_without_fetching_content
                (Fixture.imports "/README.md") Fixture.github_reader url None
                net []
                [request Fixture.api {| headers := [] |};
                 request (Fixture.api ++ "/branches/main") {| headers := [] |}]
                d (Fixture.ok_response (Fixture.json_body (JTree listing)))
                listing eq_refl eq_refl eq_refl eq_refl eq_refl eq_refl)
    as Hrun.
  eexists. split; [exact Hrun|]. split; reflexivity.
Defined.

(* ------------------------------------------------------------------ *)
(** * Further properties: the URL templates *)

Lemma string_app_assoc (a b c : string) : (a ++ b) ++ c = a ++ b ++ c.
Proof.
  induction a as [|x a IH]; [reflexivity|]. simpl. now rewrite IH.
Qed.

Lemma has_char_app (c : ascii) (s1 s2 : string) :
  has_char c (s1 ++ s2) = has_char c s1 || has_char c s2.
Proof.
  induction s1 as [|c1 s1 IH]; [reflexivity|].
  simpl. rewrite IH. now rewrite orb_assoc.
Qed.

Lemma prefix_of_app (p s : string) : String.prefix p (p ++ s) = true.
Proof.
  induction p as [|c p IH]; simpl.
  - now destruct s.
  - destruct (ascii_dec c c) as [_|Hne]; [exact IH|contradiction].
Qed.

Lemma substring_after_prefix (p s : string) :
  substring (String.length p) (String.length (p ++ s) - String.length p)
            (p ++ s) = s.
Proof.
  induction p as [|c p IH]; simpl.
  - rewrite Nat.sub_0_r. apply substring_all.
  - exact IH.
Qed.

Lemma prefix_decomposes (p s : string) :
  String.prefix p s = true ->
  s = p ++ substring (String.length p)
             (String.length s - String.length p) s.
Proof.
  revert s. induction p as [|c p IH]; intros s H.
  - simpl. rewrite Nat.sub_0_r. now rewrite substring_all.
  - destruct s as [|c' s]; simpl in H; [discriminate|].
    destruct (ascii_dec c c') as [<-|Hne]; [|discriminate].
    simpl. f_equal. now apply IH.
Qed.

(** [split_first] finds a placeholder behind a text that does not hold the
    first character of the placeholder. *)
Lemma split_first_found (c : ascii) (p before after : string) :
  has_char c before = false ->
  split_first (String c p) (before ++ String c p ++ after)
  = Some (before, after).
Proof.
  intros Hno. induction before as [|b before IH].
  - change ("" ++ String c p ++ after) with (String c p ++ after).
    unfold split_first.
    destruct (String c p ++ after) as [|x rest] eqn:E; [discriminate|].
    fold split_first. rewrite <- E. rewrite prefix_of_app.
    now rewrite substring_after_prefix.
  - simpl in Hno. apply orb_false_iff in Hno. destruct Hno as [Hb Hno].
    apply Ascii.eqb_neq in Hb.
    change (String b before ++ String c p ++ after)
      with (String b (before ++ String c p ++ after)).
    cbn [split_first String.prefix].
    destruct (ascii_dec c b) as [->|_]; [contradiction|].
    now rewrite (IH Hno).
Qed.

(** What [split_first] returns surrounds an occurrence of the pattern. *)
Lemma split_first_sound (pat s before after : string) :
  split_first pat s = Some (before, after) ->
  s = before ++ pat ++ after.
Proof.
  revert before. induction s as [|x s IH]; intros before.
  - cbn [split_first]. destruct (String.prefix pat "") eqn:Hp; [|discriminate].
    intros H. injection H as <- <-. now apply prefix_decomposes in Hp.
  - cbn [split_first].
    destruct (String.prefix pat (String x s)) eqn:Hp.
    + intros H. injection H as <- <-. now apply prefix_decomposes in Hp.
    + destruct (split_first pat s) as [[b a]|]; [|discriminate].
      intros H. injection H as <- <-. simpl. f_equal. now apply IH.
Qed.

(** A replacement text without a dollar sign is inserted as it is. *)
Lemma substitution_literal (matched before after r : string) :
  has_char "$" r = false ->
  substitution matched before after r = r.
Proof.
  induction r as [|c r IH]; [reflexivity|].
  simpl. intros H. apply orb_false_iff in H. destruct H as [Hc Hr].
  specialize (IH Hr).
  destruct c as [[] [] [] [] [] [] [] []]; try discriminate Hc;
    cbn; now rewrite IH.
Qed.

Lemma replace_placeholder (c : ascii) (p before after r : string) :
  has_char c before = false ->
  has_char "$" r = false ->
  replace (before ++ String c p ++ after) (String c p) r
  = before ++ r ++ after.
Proof.
  intros Hb Hr. unfold replace. rewrite split_first_found by assumption.
  now rewrite substitution_literal by assumption.
Qed.

(** The filled templates of the tree URL and of the archive URL. *)
Lemma filled_sha_templates (before middle after sha : string) :
  has_char "{" before = false ->
  has_char "{" middle = false ->
  has_char "$" sha = false ->
  replace (before ++ "{/sha}" ++ after) "{/sha}"
    ("/" ++ sha ++ "?recursive=true")
  = before ++ "/" ++ sha ++ "?recursive=true" ++ after /\
  replace
    (replace (before ++ "{archive_format}" ++ middle ++ "{/ref}" ++ after)
       "{archive_format}" "tarball")
    "{/ref}" ("/" ++ sha)
  = before ++ "tarball" ++ middle ++ "/" ++ sha ++ after.
Proof.
  intros Hb Hm Hs. split.
  - rewrite (@replace_placeholder "{" "/sha}" before after
               ("/" ++ sha ++ "?recursive=true") Hb).
    + now rewrite ?string_app_assoc.
    + change ("/" ++ sha ++ "?recursive=true")
        with (String "/" (sha ++ "?recursive=true")).
      cbn [has_char]. rewrite has_char_app, Hs. reflexivity.
  - rewrite (@replace_placeholder "{" "archive_format}" before
               (middle ++ "{/ref}" ++ after) "tarball" Hb eq_refl).
    replace (before ++ "tarball" ++ middle ++ "{/ref}" ++ after)
      with ((before ++ "tarball" ++ middle) ++ "{/ref}" ++ after)
      by now rewrite ?string_app_assoc.
    rewrite (@replace_placeholder "{" "/ref}" (before ++ "tarball" ++ middle)
               after ("/" ++ sha)).
    + now rewrite ?string_app_assoc.
    + rewrite !has_char_app, Hb, Hm. reflexivity.
    + cbn [append has_char]. now rewrite Hs.
Qed.

Lemma filled_branch_template (before after name : string) :
  has_char "{" before = false ->
  has_char "$" name = false ->
  replace (before ++ "{/branch}" ++ after) "{/branch}" ("/" ++ name)
  = before ++ "/" ++ name ++ after.
Proof.
  intros Hb Hn.
  rewrite (@replace_placeholder "{" "/branch}" before after ("/" ++ name) Hb).
  - now rewrite ?string_app_assoc.
  - cbn [append has_char]. now rewrite Hn.
Qed.

(** A text that does not hold the pattern is left as it is. *)
Lemma replace_without_pattern (s pat r : string) :
  (forall before after, s <> before ++ pat ++ after) ->
  replace s pat r = s.
Proof.
  intros Hno. unfold replace.
  destruct (split_first pat s) as [[b a]|] eqn:E; [|reflexivity].
  apply split_first_sound in E. now apply Hno in E.
Qed.

(** Without a truncated listing the tree request is the one request of
    [doSearch]; the request is named by the URL the code requests. *)
Lemma doSearch_one_request
    (imports : Imports) (this : GithubUrlReader)
    (treesUrl archiveUrl sha query treeUrl : string) (init : RequestInit)
    (net : Upstream) (h : History) :
  replace treesUrl "{/sha}" ("/" ++ sha ++ "?recursive=true") = treeUrl ->
  (forall r t,
      net h (request treeUrl init) = Responded r ->
      ok r = true ->
      Body.json (body r) = Some (JTree t) ->
      truncated t = false) ->
  snd (doSearch imports this treesUrl archiveUrl sha query init net h)
  = (h ++ [request treeUrl init])%list.
Proof.
  intros Hurl Hnot. unfold doSearch, bind. rewrite Hurl.
  pose proof (fetchJson_history treeUrl init net h) as Hh.
  destruct (fetchJson treeUrl init net h) as [[j|e] h1] eqn:Hj; simpl in Hh;
    subst h1; [|reflexivity].
  destruct (proj2 (successful_fetch _ _ _ _) j _ Hj)
    as (r & Hnet & Hok & Hbody & _).
  destruct j as [| |t|]; try reflexivity.
  cbn [as_tree ret]. rewrite (Hnot r t Hnet Hok Hbody). reflexivity.
Qed.

(** X8.  The requests go to the filled templates.  For a URL template
    whose text before a placeholder holds no brace, and a commit sha or
    branch name without a dollar sign: [doSearch] requests the tree URL with
    [{/sha}] replaced by the sha and [?recursive=true]; [doReadTree] fetches
    the archive URL with [{archive_format}] replaced by [tarball] and
    [{/ref}] by the sha; [getRepoDetails] requests the branches URL of the
    repository with [{/branch}] replaced by the ref of the URL or, when the
    URL has no ref, by the default branch of the repository. *)
Theorem request_urls_fill_the_templates
    (imports : Imports) (this : GithubUrlReader)
    (before middle after sha : string) (init : RequestInit) :
  has_char "{" before = false ->
  has_char "{" middle = false ->
  has_char "$" sha = false ->
  (forall archiveUrl query net h,
      (forall r t,
          net h (request (before ++ "/" ++ sha ++ "?recursive=true" ++ after)
                   init) = Responded r ->
          ok r = true ->
          Body.json (body r) = Some (JTree t) ->
          truncated t = false) ->
      snd (doSearch imports this (before ++ "{/sha}" ++ after) archiveUrl sha
             query init net h)
      = (h ++ [request (before ++ "/" ++ sha ++ "?recursive=true" ++ after)
                 init])%list) /\
  (forall subpath options net h,
      doReadTree this
        (before ++ "{archive_format}" ++ middle ++ "{/ref}" ++ after)
        sha subpath init options net h
      = bind (fetchResponse
                (before ++ "tarball" ++ middle ++ "/" ++ sha ++ after) init)
          (fun archive =>
             fromTarArchive (treeResponseFactory (deps this))
               {| FromTarArchive.stream := body archive;
                  FromTarArchive.subpath := subpath;
                  FromTarArchive.etag := sha;
                  FromTarArchive.filter :=
                    match options with
                    | Some o => ReadTreeOptions.filter o
                    | None => None
                    end |})
          net h) /\
  (forall url net h d h0,
      getRepoDetails imports this url net h = (Ok d, h0) ->
      branches_url (repo d) = before ++ "{/branch}" ++ after ->
      has_char "$" (ref (parseGitUrl imports url)) = false ->
      has_char "$" (default_branch (repo d)) = false ->
      h0 = (h ++ [request (interpolate (apiBaseUrl (config this))
                           ++ "/repos/"
                           ++ full_name (parseGitUrl imports url))
                    (getCredentials (credentialsProvider (deps this)) url);
                  request (before ++ "/"
                           ++ (if ref (parseGitUrl imports url) =? ""
                               then default_branch (repo d)
                               else ref (parseGitUrl imports url))
                           ++ after)
                    (getCredentials (credentialsProvider (deps this)) url)])
           %list).
Proof.
  intros Hb Hm Hs.
  destruct (@filled_sha_templates before middle after sha Hb Hm Hs)
    as [Htree Harchive].
  split; [|split].
  - intros archiveUrl query net h Hnot.
    now apply doSearch_one_request.
  - intros subpath options net h. unfold doReadTree. now rewrite Harchive.
  - intros url net h d h0 Hd Hurl Hr Hdef.
    rewrite (getRepoDetails_history imports this url net h Hd).
    unfold repo_request, branch_request, credentials, or_else.
    rewrite Hurl. rewrite filled_branch_template; [reflexivity|assumption|].
    now destruct (ref (parseGitUrl imports url) =? "").
Qed.

Lemma request_urls_fill_the_templates_witness :
  let net := Fixture.upstream "abc123" {| tree := []; truncated := false |}
               [] "" [] in
  snd (doSearch (Fixture.imports "README.md") Fixture.github_reader
         (Fixture.api ++ "/git/trees{/sha}") (archive_url Fixture.repo_json)
         "abc123" "README.md" {| headers := [] |} net [])
  = [request (Fixture.api ++ "/git/trees/abc123?recursive=true")
       {| headers := [] |}] /\
  snd (getRepoDetails (Fixture.imports "docs") Fixture.github_reader
         "https://github.com/acme/widgets/tree/main/docs" net [])
  = [request Fixture.api {| headers := [] |};
     request (Fixture.api ++ "/branches/main") {| headers := [] |}].
Proof.
  intros net.
  destruct (@request_urls_fill_the_templates
              (Fixture.imports "README.md") Fixture.github_reader
              (Fixture.api ++ "/git/trees") "" "" "abc123"
              {| headers := [] |} eq_refl eq_refl eq_refl)
    as (Htree & _ & _).
  destruct (@request_urls_fill_the_templates
              (Fixture.imports "docs") Fixture.github_reader
              (Fixture.api ++ "/branches") "" "" "abc123"
              {| headers := [] |} eq_refl eq_refl eq_refl)
    as (_ & _ & Hbranch).
  split.
  - apply (Htree (archive_url Fixture.repo_json) "README.md" net []).
    intros r t Hnet _ Hbody. vm_compute in Hnet. injection Hnet as <-.
    injection Hbody as <-. reflexivity.
  - pose (d := {| repo := Fixture.repo_json;
                  branch := {| commit_sha := "abc123" |} |}).
    assert (Hd : exists h0,
               getRepoDetails (Fixture.imports "docs") Fixture.github_reader
                 "https://github.com/acme/widgets/tree/main/docs" net []
               = (Ok d, h0)) by (eexists; reflexivity).
    destruct Hd as [h0 Hd]. rewrite Hd. cbn [snd].
    exact (Hbranch "https://github.com/acme/widgets/tree/main/docs" net []
             d h0 Hd eq_refl eq_refl eq_refl).
Defined.

(** X9.  A template without the placeholder is requested as it is.  When
    the tree URL does not hold [{/sha}], [doSearch] requests the tree URL
    itself; when the archive URL holds neither [{archive_format}] nor
    [{/ref}], [doReadTree] fetches the archive URL itself: the commit sha is
    then no part of the request. *)
Theorem template_without_placeholder_is_kept
    (imports : Imports) (this : GithubUrlReader) (sha : string)
    (init : RequestInit) :
  (forall treesUrl archiveUrl query net h,
      (forall before after, treesUrl <> before ++ "{/sha}" ++ after) ->
      (forall r t,
          net h (request treesUrl init) = Responded r ->
          ok r = true ->
          Body.json (body r) = Some (JTree t) ->
          truncated t = false) ->
      snd (doSearch imports this treesUrl archiveUrl sha query init net h)
      = (h ++ [request treesUrl init])%list) /\
  (forall archiveUrl subpath options net h,
      (forall before after,
          archiveUrl <> before ++ "{archive_format}" ++ after) ->
      (forall before after, archiveUrl <> before ++ "{/ref}" ++ after) ->
      doReadTree this archiveUrl sha subpath init options net h
      = bind (fetchResponse archiveUrl init)
          (fun archive =>
             fromTarArchive (treeResponseFactory (deps this))
               {| FromTarArchive.stream := body archive;
                  FromTarArchive.subpath := subpath;
                  FromTarArchive.etag := sha;
                  FromTarArchive.filter :=
                    match options with
                    | Some o => ReadTreeOptions.filter o
                    | None => None
                    end |})
          net h).
Proof.
  split.
  - intros treesUrl archiveUrl query net h Hno Hnot.
    apply doSearch_one_request; [|exact Hnot].
    now apply replace_without_pattern.
  - intros archiveUrl subpath options net h Hno1 Hno2. unfold doReadTree.
    rewrite (@replace_without_pattern archiveUrl "{archive_format}" "tarball"
               Hno1).
    now rewrite (@replace_without_pattern archiveUrl "{/ref}" ("/" ++ sha)
                   Hno2).
Qed.

Lemma template_without_placeholder_is_kept_witness :
  let net := Fixture.upstream "abc123" {| tree := []; truncated := false |}
               [] "" [] in
  snd (doSearch (Fixture.imports "README.md") Fixture.github_reader
         "https://ghe.example.com/trees" (archive_url Fixture.repo_json)
         "abc123" "README.md" {| headers := [] |} net [])
  = [request "https://ghe.example.com/trees" {| headers := [] |}].
Proof.
  intros net.
  apply (proj1 (@template_without_placeholder_is_kept
                  (Fixture.imports "README.md") Fixture.github_reader
                  "abc123" {| headers := [] |})).
  - intros before after E.
    assert (H : has_char "{" "https://ghe.example.com/trees" = true).
    { rewrite E, !has_char_app. cbn. apply orb_true_r. }
    discriminate H.
  - intros r t Hnet Hok. vm_compute in Hnet. injection Hnet as <-.
    discriminate Hok.
Defined.

(* ------------------------------------------------------------------ *)
(** * Further properties: the glob of search *)

Lemma strip_slashes (n : nat) (q : string) :
  strip_leading_slashes (slashes n ++ q) = strip_leading_slashes q.
Proof.
  induction n as [|n IH]; [reflexivity|exact IH].
Qed.

(** A text that does not start with a slash has no slash to strip. *)
Lemma strip_nothing (g : string) :
  String.prefix "/" g = false -> strip_leading_slashes g = g.
Proof.
  destruct g as [|c g]; [reflexivity|]. cbn [String.prefix].
  destruct (ascii_dec "/" c) as [<-|Hne]; [now destruct g|]. intros _.
  destruct c as [[] [] [] [] [] [] [] []]; try reflexivity.
  now contradiction Hne.
Qed.

(** Every query is some slashes followed by a glob that does not start
    with a slash. *)
Lemma query_decomposes (query : string) :
  exists n glob,
    query = slashes n ++ glob /\ String.prefix "/" glob = false.
Proof.
  induction query as [|c q IH].
  - exists 0%nat, "". split; reflexivity.
  - destruct (Ascii.eqb_spec c "/") as [->|Hne].
    + destruct IH as (n & g & Hq & Hp). exists (S n), g.
      split; [|exact Hp]. simpl. now rewrite <- Hq.
    + exists 0%nat, (String c q). split; [reflexivity|].
      cbn [String.prefix].
      destruct (ascii_dec "/" c) as [E|_]; [|reflexivity].
      symmetry in E. contradiction.
Qed.

(** X10.  The glob that [doSearch] gives to the matcher is the query
    without its leading slashes.  Every query is some slashes followed by a
    glob that does not start with a slash; for such a query the files of a
    listing that is not truncated are the eligible entries whose path the
    matcher accepts for that glob, and on a truncated listing the filter
    handed to [doReadTree] is the matcher for that glob. *)
Theorem search_ignores_leading_slashes
    (imports : Imports) (this : GithubUrlReader)
    (treesUrl archiveUrl sha : string) (init : RequestInit) :
  (forall query,
      exists n glob,
        query = slashes n ++ glob /\ String.prefix "/" glob = false) /\
  (forall n glob net h r t,
      String.prefix "/" glob = false ->
      net h (tree_request treesUrl sha init) = Responded r ->
      ok r = true ->
      Body.json (body r) = Some (JTree t) ->
      (truncated t = false ->
       exists files,
         doSearch imports this treesUrl archiveUrl sha (slashes n ++ glob)
           init net h
         = (Ok files, (h ++ [tree_request treesUrl sha init])%list) /\
         forall p,
           In p (paths files) <->
           exists item,
             In item (tree t) /\ TreeItem.type item = Some "blob" /\
             TreeItem.path item = Some p /\ p <> "" /\
             truthy (TreeItem.url item) = true /\
             Minimatch_match imports glob p = true) /\
      (truncated t = true ->
       doSearch imports this treesUrl archiveUrl sha (slashes n ++ glob)
         init net h
       = bind (doReadTree this archiveUrl sha "" init
                 (Some {| ReadTreeOptions.etag := None;
                          ReadTreeOptions.filter :=
                            Some (Minimatch_match imports glob) |}))
           (fun tree => ReadTreeResponse.files tree tt)
           net (h ++ [tree_request treesUrl sha init])%list)).
Proof.
  split; [exact query_decomposes|].
  intros n glob net h r t Hglob Hnet Hok Hj.
  assert (Hstrip : strip_leading_slashes (slashes n ++ glob) = glob)
    by (rewrite strip_slashes; now apply strip_nothing).
  split.
  - intros Ht. eexists. split.
    + apply (doSearch_direct imports this treesUrl archiveUrl sha
               (slashes n ++ glob) init net h Hnet Hok Hj Ht).
    + intros p. rewrite Hstrip. apply direct_paths.
  - intros Ht. unfold doSearch, bind.
    unfold tree_request in Hnet.
    rewrite (fetchJson_ok _ _ _ _ Hnet Hok Hj).
    cbn [as_tree ret]. rewrite Ht. cbn [negb]. rewrite Hstrip. reflexivity.
Qed.

Lemma search_ignores_leading_slashes_witness :
  let listing :=
    {| tree := [TreeItem.mk (Some "blob") (Some "README.md")
                  (Some (Fixture.api ++ "/git/blobs/1"));
                TreeItem.mk (Some "blob") (Some "LICENSE")
                  (Some (Fixture.api ++ "/git/blobs/2"))];
       truncated := false |} in
  let net := Fixture.upstream "abc123" listing [] "aGk=" [] in
  let init := {| headers := [] |} in
  exists files h1,
    doSearch (Fixture.imports "//README.md") Fixture.github_reader
      (trees_url Fixture.repo_json) (archive_url Fixture.repo_json)
      "abc123" "//README.md" init net []
    = (Ok files, h1) /\
    paths files = ["README.md"].
Proof.
  intros listing net init.
  destruct (proj2 (@search_ignores_leading_slashes
                     (Fixture.imports "//README.md") Fixture.github_reader
                     (trees_url Fixture.repo_json)
                     (archive_url Fixture.repo_json) "abc123" init)
              2%nat "README.md" net []
              (Fixture.ok_response (Fixture.json_body (JTree listing)))
              listing eq_refl eq_refl eq_refl eq_refl) as [Hdirect _].
  destruct (Hdirect eq_refl) as (files & Hrun & _).
  exists files. eexists. split; [exact Hrun|].
  vm_compute in Hrun. injection Hrun as <-. reflexivity.
Defined.

(* ------------------------------------------------------------------ *)
(** * Further properties: the factory *)

Lemma constructor_throws_iff (cfg : GitHubIntegrationConfig) (d : Deps) :
  (lacks_base_urls cfg = true ->
   new_GithubUrlReader cfg d
   = Throw (mkError Error_
       ("GitHub integration for '" ++ host cfg
        ++ "' must configure an explicit apiBaseUrl and rawBaseUrl"))) /\
  (lacks_base_urls cfg = false ->
   new_GithubUrlReader cfg d = Ok {| config := cfg; deps := d |}).
Proof.
  unfold new_GithubUrlReader, lacks_base_urls.
  split; intros ->; reflexivity.
Qed.

(** X11.  The factory builds all the readers or none.  It throws exactly
    when some config has neither an API base URL nor a raw base URL (absent
    or empty); the error is then the constructor's error for the first such
    config of the list, and names its host. *)
Theorem factory_is_all_or_nothing
    (imports : Imports) (F : ReadTreeResponseFactory)
    (configs : list GitHubIntegrationConfig) :
  ((exists e, factory imports configs F = Throw e) <->
   (exists cfg, In cfg configs /\ lacks_base_urls cfg = true)) /\
  (forall good cfg rest,
      configs = (good ++ cfg :: rest)%list ->
      (forall c, In c good -> lacks_base_urls c = false) ->
      lacks_base_urls cfg = true ->
      factory imports configs F
      = Throw (mkError Error_
          ("GitHub integration for '" ++ host cfg
           ++ "' must configure an explicit apiBaseUrl and rawBaseUrl"))).
Proof.
  assert (Hfirst : forall good cfg rest,
      (forall c, In c good -> lacks_base_urls c = false) ->
      lacks_base_urls cfg = true ->
      factory imports (good ++ cfg :: rest) F
      = Throw (mkError Error_
          ("GitHub integration for '" ++ host cfg
           ++ "' must configure an explicit apiBaseUrl and rawBaseUrl"))).
  { intros good cfg rest Hgood Hbad. unfold factory.
    induction good as [|c good IH]; cbn [app map_throwing].
    - now rewrite (proj1 (constructor_throws_iff cfg _) Hbad).
    - rewrite (proj2 (constructor_throws_iff c _)
                 (Hgood c (or_introl eq_refl))).
      rewrite IH; [reflexivity|].
      intros c' Hin. apply Hgood. now right. }
  split; [split|].
  - intros [e He]. unfold factory in He.
    induction configs as [|cfg configs IH]; [discriminate|].
    cbn [map_throwing] in He.
    destruct (lacks_base_urls cfg) eqn:Hl.
    + exists cfg. split; [now left|assumption].
    + rewrite (proj2 (constructor_throws_iff cfg _) Hl) in He.
      match type of He with
      | context [map_throwing ?f configs] =>
          destruct (map_throwing f configs) as [ps|e'] eqn:Hrest
      end; [discriminate|].
      destruct (IH He) as (c & Hin & Hc). exists c. split; auto.
      now right.
  - intros (cfg & Hin & Hbad).
    destruct (find lacks_base_urls configs) as [c|] eqn:Hf.
    + apply find_first in Hf.
      destruct Hf as (good & rest & -> & Hc & Hgood).
      eexists. now apply Hfirst.
    + rewrite (proj1 (find_nothing lacks_base_urls configs) Hf cfg Hin)
        in Hbad.
      discriminate.
  - intros good cfg rest -> Hgood Hbad. now apply Hfirst.
Qed.

(** X12.  When the factory succeeds it returns one reader for each config,
    in the order of the configs: each reader holds its config, the given
    tree response factory and the credentials provider created for that
    config, its config has a base URL, and its predicate accepts a URL
    exactly when [url.host] equals the host of the config. *)
Theorem factory_readers_follow_the_configs
    (imports : Imports) (F : ReadTreeResponseFactory)
    (configs : list GitHubIntegrationConfig)
    (pairs : list ReaderPredicateTuple) :
  factory imports configs F = Ok pairs ->
  map (fun p => config (reader p)) pairs = configs /\
  forall p, In p pairs ->
    treeResponseFactory (deps (reader p)) = F /\
    credentialsProvider (deps (reader p))
    = GithubCredentialsProvider_create imports (config (reader p)) /\
    lacks_base_urls (config (reader p)) = false /\
    forall url,
      predicate p url = true <-> URL.host url = host (config (reader p)).
Proof.
  unfold factory. revert pairs.
  induction configs as [|cfg configs IH]; cbn [map_throwing]; intros pairs H.
  - injection H as <-. split; [reflexivity|]. intros p [].
  - destruct (lacks_base_urls cfg) eqn:Hl.
    + now rewrite (proj1 (constructor_throws_iff cfg _) Hl) in H.
    + rewrite (proj2 (constructor_throws_iff cfg _) Hl) in H.
      match type of H with
      | context [map_throwing ?f configs] =>
          destruct (map_throwing f configs) as [ps|e] eqn:Hrest
      end; [|discriminate].
      injection H as <-. destruct (IH ps eq_refl) as [Hmap Hall].
      split.
      * simpl. now rewrite Hmap.
      * intros p [<-|Hin]; [|now apply Hall].
        simpl. repeat split; auto.
        -- now apply String.eqb_eq.
        -- now apply String.eqb_eq.
Qed.

Lemma factory_readers_follow_the_configs_witness :
  exists pairs,
    factory (Fixture.imports "") [Fixture.github_com] (TreeMaterializer 1000000)
    = Ok pairs /\
    map (fun p => config (reader p)) pairs = [Fixture.github_com].
Proof.
  eexists. split; [reflexivity|].
  exact (proj1 (@factory_readers_follow_the_configs
                  (Fixture.imports "") (TreeMaterializer 1000000)
                  [Fixture.github_com] _ eq_refl)).
Defined.

(* ------------------------------------------------------------------ *)
(** * Further properties: helpers.ts *)

(** X14.  Given a string, [byUrl] returns a result exactly for the strings
    that [isValidUrl] accepts and throws a [TypeError] for every other
    string: an unparseable URL is not answered with [undefined].  Given a
    parsed URL it never throws. *)
Theorem byUrl_throws_exactly_on_invalid_urls
    (T : Type) (new_URL : string -> option URL.t)
    (integrations : list T) (getHost : T -> string) (url : string) :
  let group := basicIntegrations new_URL integrations getHost in
  (isValidUrl new_URL url = true <-> exists r, byUrl group (inl url) = Ok r) /\
  (isValidUrl new_URL url = false <->
   exists e, byUrl group (inl url) = Throw e /\ name e = TypeError) /\
  (forall u : URL.t, exists r, byUrl group (inr u) = Ok r).
Proof.
  unfold isValidUrl. simpl.
  destruct (new_URL url) as [u|]; split; [|split| |split].
  - split; [eauto|reflexivity].
  - split; [discriminate|]. intros (e & He & _). discriminate He.
  - eauto.
  - split; [discriminate|]. intros [r Hr]. discriminate Hr.
  - split; [eauto|reflexivity].
  - eauto.
Qed.

(* ------------------------------------------------------------------ *)
(** * Further properties: the outcomes of read and of the listing *)

(** X17.  Once the fetch URL is built, [read] returns a buffer exactly when
    the upstream answers in the range 2xx; a transport failure and every
    other status make it throw. *)
Theorem read_succeeds_iff_2xx
    (imports : Imports) (this : GithubUrlReader) (url ghUrl : string)
    (net : Upstream) (h : History) :
  getGitHubFileFetchUrl imports url (config this) = Ok ghUrl ->
  ((exists b, fst (read imports this url net h) = Ok b) <->
   (exists r, net h (read_request this url ghUrl) = Responded r /\
              ok r = true)).
Proof.
  intros Hg.
  destruct (net h (read_request this url ghUrl)) as [e|r] eqn:Hnet.
  - rewrite (read_rejected imports this url Hg net h Hnet). simpl. split.
    + intros [b Hb]. discriminate Hb.
    + intros (r & Hr & _). discriminate Hr.
  - destruct (ok r) eqn:Hok.
    + rewrite (read_ok imports this url Hg net h Hnet Hok). simpl.
      split; eauto.
    + rewrite (read_not_ok imports this url Hg net h Hnet Hok). simpl. split.
      * intros [b Hb]. discriminate Hb.
      * intros (r' & Hr & Hok'). injection Hr as <-. congruence.
Qed.

Lemma read_succeeds_iff_2xx_witness :
  let net := Fixture.upstream "abc123" {| tree := []; truncated := false |}
               [] "" [x68; x69] in
  exists b,
    fst (read (Fixture.imports "README.md") Fixture.github_reader
           "https://github.com/acme/widgets/blob/main/README.md" net [])
    = Ok b.
Proof.
  intros net.
  apply (proj2 (@read_succeeds_iff_2xx (Fixture.imports "README.md")
                  Fixture.github_reader
                  "https://github.com/acme/widgets/blob/main/README.md"
                  "https://raw.githubusercontent.com/acme/widgets/main/README.md"
                  net [] eq_refl)).
  eexists. split; reflexivity.
Defined.

(** X15.  [doSearch] falls back on the archive only for a listing that says
    it is truncated.  In every other case -- a transport failure, an answer
    outside 2xx, a body that is not a tree listing, a listing that is not
    truncated -- the tree request is the only request it issues. *)
Theorem search_falls_back_only_on_truncation
    (imports : Imports) (this : GithubUrlReader)
    (treesUrl archiveUrl sha query : string) (init : RequestInit)
    (net : Upstream) (h : History) :
  (forall r t,
      net h (tree_request treesUrl sha init) = Responded r ->
      ok r = true ->
      Body.json (body r) = Some (JTree t) ->
      truncated t = false) ->
  snd (doSearch imports this treesUrl archiveUrl sha query init net h)
  = (h ++ [tree_request treesUrl sha init])%list.
Proof.
  intros Hnot. unfold doSearch, bind.
  pose proof (fetchJson_history
                (replace treesUrl "{/sha}" ("/" ++ sha ++ "?recursive=true"))
                init net h) as Hh.
  destruct (fetchJson _ init net h) as [[j|e] h1] eqn:Hj; simpl in Hh;
    subst h1; [|reflexivity].
  destruct (proj2 (successful_fetch _ _ _ _) j _ Hj)
    as (r & Hnet & Hok & Hbody & _).
  destruct j as [| |t|]; try reflexivity.
  cbn [as_tree ret]. rewrite (Hnot r t Hnet Hok Hbody). reflexivity.
Qed.

Lemma search_falls_back_only_on_truncation_witness :
  let listing :=
    {| tree := [TreeItem.mk (Some "blob") (Some "README.md")
                  (Some (Fixture.api ++ "/git/blobs/1"))];
       truncated := false |} in
  let net := Fixture.upstream "abc123" listing [] "aGk=" [] in
  snd (doSearch (Fixture.imports "README.md") Fixture.github_reader
         (trees_url Fixture.repo_json) (archive_url Fixture.repo_json)
         "abc123" "README.md" {| headers := [] |} net [])
  = [tree_request (trees_url Fixture.repo_json) "abc123" {| headers := [] |}].
Proof.
  intros listing net.
  apply (@search_falls_back_only_on_truncation
           (Fixture.imports "README.md") Fixture.github_reader
           (trees_url Fixture.repo_json) (archive_url Fixture.repo_json)
           "abc123" "README.md" {| headers := [] |} net []).
  intros r t Hnet _ Hbody. vm_compute in Hnet. injection Hnet as <-.
  injection Hbody as <-. reflexivity.
Defined.

(** X16.  Each file of the direct listing belongs to an entry of the
    listing: it has the path of the entry, and its accessor requests the url
    of that same entry.  When the blob request is answered outside 2xx the
    invocation throws [NotFoundError] (status 404) or a plain [Error], after
    that one request. *)
Theorem listed_file_fetches_its_own_blob
    (imports : Imports) (this : GithubUrlReader)
    (treesUrl archiveUrl sha query : string) (init : RequestInit)
    (net : Upstream) (h : History) (r : Response) (t : GhTreeResponse) :
  net h (tree_request treesUrl sha init) = Responded r ->
  ok r = true ->
  Body.json (body r) = Some (JTree t) ->
  truncated t = false ->
  exists files,
    doSearch imports this treesUrl archiveUrl sha query init net h
    = (Ok files, (h ++ [tree_request treesUrl sha init])%list) /\
    forall f, In f files ->
      exists item blobUrl,
        In item (tree t) /\
        TreeItem.path item = Some (ResponseFile.path f) /\
        TreeItem.url item = Some blobUrl /\
        (forall net' h',
            snd (ResponseFile.content f tt net' h')
            = (h' ++ [request blobUrl init])%list) /\
        (forall net' h' rb,
            net' h' (request blobUrl init) = Responded rb ->
            ok rb = false ->
            ResponseFile.content f tt net' h'
            = (Throw (request_failed blobUrl rb),
               (h' ++ [request blobUrl init])%list)).
Proof.
  intros Hnet Hok Hj Ht. eexists. split.
  - apply (doSearch_direct imports this treesUrl archiveUrl sha query init
             net h Hnet Hok Hj Ht).
  - intros f Hin. apply in_map_iff in Hin. destruct Hin as (item & <- & Hin).
    apply filter_In in Hin. destruct Hin as [Hin Hm].
    unfold matching in Hm.
    destruct item as [ty [pa|] [u|]]; cbn [TreeItem.path TreeItem.url] in Hm;
      try (rewrite ?andb_false_r in Hm; discriminate Hm).
    exists (TreeItem.mk ty (Some pa) (Some u)), u.
    split; [exact Hin|]. split; [reflexivity|]. split; [reflexivity|].
    split.
    + intros net' h'.
      apply (listed_content_history imports init
               (TreeItem.mk ty (Some pa) (Some u))).
    + intros net' h' rb Hnet' Hok'. cbn. unfold bind.
      destruct (@fetch_failure u init net' h' rb Hnet' Hok') as [_ Hf].
      now rewrite Hf.
Qed.

Lemma listed_file_fetches_its_own_blob_witness :
  let listing :=
    {| tree := [TreeItem.mk (Some "blob") (Some "README.md")
                  (Some (Fixture.api ++ "/git/blobs/1"))];
       truncated := false |} in
  let net := Fixture.upstream "abc123" listing [] "aGk=" [] in
  let init := {| headers := [] |} in
  exists files,
    doSearch (Fixture.imports "README.md") Fixture.github_reader
      (trees_url Fixture.repo_json) (archive_url Fixture.repo_json)
      "abc123" "README.md" init net []
    = (Ok files, [tree_request (trees_url Fixture.repo_json) "abc123" init]) /\
    length files = 1%nat.
Proof.
  intros listing net init.
  destruct (@listed_file_fetches_its_own_blob
              (Fixture.imports "README.md") Fixture.github_reader
              (trees_url Fixture.repo_json) (archive_url Fixture.repo_json)
              "abc123" "README.md" init net []
              (Fixture.ok_response (Fixture.json_body (JTree listing)))
              listing eq_refl eq_refl eq_refl eq_refl)
    as (files & Hrun & _).
  exists files. split; [exact Hrun|].
  vm_compute in Hrun. injection Hrun as <-. reflexivity.
Defined.

(* ------------------------------------------------------------------ *)
(** * Further properties: read and UTF-8 *)

Section Utf8RoundTrip.
Local Open Scope N_scope.

Lemma to_N_byte_of (n : N) : n < 256 -> Byte.to_N (byte_of n) = n.
Proof.
  intros H. unfold byte_of. rewrite N.mod_small by assumption.
  destruct (Byte.of_N n) as [b|] eqn:E.
  - now apply Byte.to_of_N.
  - apply Byte.of_N_None_iff in E. lia.
Qed.

Lemma land_mul_pow2_small (a b k : N) : b < 2 ^ k -> N.land (a * 2 ^ k) b = 0.
Proof.
  intros Hb. apply N.bits_inj. intros n. rewrite N.land_spec, N.bits_0.
  destruct (N.ltb_spec n k) as [Hn|Hn].
  - now rewrite N.mul_pow2_bits_low.
  - rewrite andb_false_iff. right.
    destruct (N.eq_dec b 0) as [->|Hb0]; [apply N.bits_0|].
    apply N.bits_above_log2. apply N.log2_lt_pow2; [lia|].
    eapply N.lt_le_trans; [exact Hb|]. apply N.pow_le_mono_r; lia.
Qed.

Lemma lor_mul_pow2 (a b k : N) : b < 2 ^ k -> N.lor (a * 2 ^ k) b = a * 2 ^ k + b.
Proof.
  intros Hb. pose proof (@land_mul_pow2_small a b k Hb) as H0.
  rewrite <- (N.lxor_lor _ _ H0). symmetry. now apply N.add_nocarry_lxor.
Qed.


Ltac euclid := zify; Z.to_euclidean_division_equations; lia.

Lemma lead_byte_of (hi k x : N) :
  x < 2 ^ k -> hi * 2 ^ k + x < 256 ->
  Byte.to_N (byte_of (N.lor (hi * 2 ^ k) x)) = hi * 2 ^ k + x.
Proof.
  intros Hx Hlt. rewrite lor_mul_pow2 by assumption.
  now apply to_N_byte_of.
Qed.

Lemma continuation_byte (y : N) :
  Byte.to_N (byte_of (N.lor 0x80 (N.land y 0x3F))) = 128 + y mod 64.
Proof.
  change 0x3F with (N.ones 6). rewrite N.land_ones.
  change 0x80 with (2 * 2 ^ 6). change 64 with (2 ^ 6).
  assert (H : y mod 2 ^ 6 < 2 ^ 6) by (apply N.mod_lt; discriminate).
  rewrite lead_byte_of; [reflexivity|assumption|].
  change (2 ^ 6) with 64 in *. lia.
Qed.

Lemma step_continuation (cp : N) (k : nat) (lo hi x : N) :
  lo <= x -> x <= hi ->
  Utf8.step (Utf8.mk cp (S k) lo hi) x
  = match k with
    | O => ([cp * 64 + x mod 64], Utf8.initial)
    | S _ => ([], Utf8.mk (cp * 64 + x mod 64) k 0x80 0xBF)
    end.
Proof.
  intros Hlo Hhi. unfold Utf8.step. cbn [Utf8.bytes_needed Utf8.lower Utf8.upper Utf8.code_point].
  apply N.leb_le in Hlo, Hhi. rewrite Hlo, Hhi. cbn [andb].
  rewrite N.shiftl_mul_pow2. change 0x3F with (N.ones 6). rewrite N.land_ones.
  rewrite lor_mul_pow2 by (apply N.mod_lt; discriminate).
  change (2 ^ 6) with 64. reflexivity.
Qed.


Ltac decide_tests :=
  repeat match goal with
         | |- context [(?a <=? ?b)] =>
             destruct (N.leb_spec a b); try lia; cbn [andb]
         end.

Lemma lead_two (x : N) :
  194 <= x -> x <= 223 ->
  Utf8.lead x = ([], Utf8.mk (x mod 32) 1 128 191).
Proof.
  intros Hl Hu. unfold Utf8.lead. decide_tests.
  change 0x1F with (N.ones 5). now rewrite N.land_ones.
Qed.

Lemma lead_three (x : N) :
  224 <= x -> x <= 239 ->
  Utf8.lead x
  = ([], Utf8.mk (x mod 16) 2 (if x =? 224 then 160 else 128)
                 (if x =? 237 then 159 else 191)).
Proof.
  intros Hl Hu. unfold Utf8.lead. decide_tests.
  change 0xF with (N.ones 4). now rewrite N.land_ones.
Qed.

Lemma lead_four (x : N) :
  240 <= x -> x <= 244 ->
  Utf8.lead x
  = ([], Utf8.mk (x mod 8) 3 (if x =? 240 then 144 else 128)
                 (if x =? 244 then 143 else 191)).
Proof.
  intros Hl Hu. unfold Utf8.lead. decide_tests.
  change 0x7 with (N.ones 3). now rewrite N.land_ones.
Qed.


Lemma scalar_range (c : N) :
  scalar c = true -> c < 55296 \/ (57344 <= c /\ c <= 1114111).
Proof.
  unfold scalar. intros H. apply orb_true_iff in H. destruct H as [H|H].
  - left. now apply N.ltb_lt.
  - right. apply andb_true_iff in H. destruct H as [Ha Hb].
    split; now apply N.leb_le.
Qed.

Lemma decode_encode_one (c : N) (rest : Buffer) :
  scalar c = true ->
  Utf8.decode_from Utf8.initial (Utf8.encode_one c ++ rest)%list
  = c :: Utf8.decode_from Utf8.initial rest.
Proof.
  intros Hc. apply scalar_range in Hc.
  unfold Utf8.encode_one.
  destruct (N.leb_spec c 0x7F) as [H1|H1];
    [|destruct (N.leb_spec c 0x7FF) as [H2|H2];
      [|destruct (N.leb_spec c 0xFFFF) as [H3|H3]]].
  - cbn [app Utf8.decode_from Utf8.step Utf8.initial Utf8.bytes_needed].
    rewrite to_N_byte_of by lia. unfold Utf8.lead.
    apply N.leb_le in H1. rewrite H1. reflexivity.
  - cbn [app Utf8.decode_from].
    rewrite N.shiftr_div_pow2. change 0xC0 with (3 * 2 ^ 6).
    rewrite lead_byte_of; [|change (2 ^ 6) with 64; euclid..].
    rewrite continuation_byte. change (2 ^ 6) with 64.
    cbn [Utf8.step Utf8.initial Utf8.bytes_needed].
    rewrite lead_two by euclid. cbn [app].
    rewrite step_continuation by euclid. cbn [app].
    f_equal. euclid.
  - cbn [app Utf8.decode_from].
    rewrite !N.shiftr_div_pow2. change 0xE0 with (14 * 2 ^ 4).
    rewrite lead_byte_of;
      [|change (2 ^ 4) with 16; change (2 ^ 12) with 4096; euclid..].
    rewrite !continuation_byte.
    change (2 ^ 4) with 16. change (2 ^ 12) with 4096.
    change (2 ^ 6) with 64.
    cbn [Utf8.step Utf8.initial Utf8.bytes_needed].
    rewrite lead_three by euclid. cbn [app].
    rewrite step_continuation;
      [|destruct (N.eqb_spec (14 * 16 + c / 4096) 224);
        destruct (N.eqb_spec (14 * 16 + c / 4096) 237); euclid..].
    cbn [app].
    rewrite step_continuation by euclid. cbn [app].
    f_equal. euclid.
  - cbn [app Utf8.decode_from].
    rewrite !N.shiftr_div_pow2. change 0xF0 with (15 * 2 ^ 4).
    rewrite lead_byte_of;
      [|change (2 ^ 4) with 16; change (2 ^ 18) with 262144; euclid..].
    rewrite !continuation_byte.
    change (2 ^ 4) with 16. change (2 ^ 18) with 262144.
    change (2 ^ 12) with 4096. change (2 ^ 6) with 64.
    cbn [Utf8.step Utf8.initial Utf8.bytes_needed].
    rewrite lead_four by euclid. cbn [app].
    rewrite step_continuation;
      [|destruct (N.eqb_spec (15 * 16 + c / 262144) 240);
        destruct (N.eqb_spec (15 * 16 + c / 262144) 244); euclid..].
    cbn [app].
    rewrite step_continuation by euclid. cbn [app].
    rewrite step_continuation by euclid. cbn [app].
    f_equal. euclid.
Qed.

Lemma decode_encode (s : list N) :
  forallb scalar s = true -> Utf8.decode (Utf8.encode s) = s.
Proof.
  unfold Utf8.decode, Utf8.encode.
  induction s as [|c s IH]; [reflexivity|].
  cbn [forallb flat_map]. intros H. apply andb_true_iff in H.
  destruct H as [Hc Hs].
  rewrite decode_encode_one by assumption. now rewrite IH.
Qed.

Lemma scalar_intro (c : N) :
  c < 55296 \/ (57344 <= c /\ c <= 1114111) -> scalar c = true.
Proof.
  unfold scalar. intros [H|[Ha Hb]].
  - apply N.ltb_lt in H. now rewrite H.
  - apply N.leb_le in Ha, Hb. rewrite Ha, Hb. apply orb_true_r.
Qed.

Lemma lead_reachable (b : N) :
  forallb scalar (fst (Utf8.lead b)) = true /\ reachable (snd (Utf8.lead b)).
Proof.
  unfold Utf8.lead.
  destruct (N.leb_spec b 0x7F) as [H1|H1].
  { split; [|exact I]. cbn [fst forallb]. rewrite scalar_intro by lia.
    reflexivity. }
  destruct (N.leb_spec 0xC2 b) as [H2|H2];
    [destruct (N.leb_spec b 0xDF) as [H3|H3]|]; cbn [andb].
  { split; [reflexivity|]. cbn. change 31 with (N.ones 5).
    rewrite N.land_ones. change (2 ^ 5) with 32. repeat split; euclid. }
  all: destruct (N.leb_spec 0xE0 b) as [H4|H4];
    [destruct (N.leb_spec b 0xEF) as [H5|H5]|]; cbn [andb].
  all: try (split; [reflexivity|]; cbn; change 15 with (N.ones 4);
            rewrite N.land_ones; change (2 ^ 4) with 16;
            destruct (N.eqb_spec b 224); destruct (N.eqb_spec b 237);
            repeat split; euclid).
  all: destruct (N.leb_spec 0xF0 b) as [H6|H6];
    [destruct (N.leb_spec b 0xF4) as [H7|H7]|]; cbn [andb].
  all: try (split; [reflexivity|]; cbn; change 7 with (N.ones 3);
            rewrite N.land_ones; change (2 ^ 3) with 8;
            destruct (N.eqb_spec b 240); destruct (N.eqb_spec b 244);
            repeat split; euclid).
  all: split; [reflexivity|exact I].
Qed.

Lemma step_reachable (st : Utf8.state) (b : N) :
  reachable st ->
  forallb scalar (fst (Utf8.step st b)) = true /\
  reachable (snd (Utf8.step st b)).
Proof.
  intros Hst. destruct st as [cp k lo hi]. unfold Utf8.step.
  cbn [Utf8.bytes_needed Utf8.lower Utf8.upper Utf8.code_point].
  destruct k as [|k]; [apply lead_reachable|].
  destruct (N.leb_spec lo b) as [Hlo|Hlo];
    [destruct (N.leb_spec b hi) as [Hhi|Hhi]|]; cbn [andb].
  - rewrite N.shiftl_mul_pow2. change 0x3F with (N.ones 6).
    rewrite N.land_ones.
    rewrite lor_mul_pow2 by (apply N.mod_lt; discriminate).
    change (2 ^ 6) with 64.
    unfold reachable in Hst. cbn in Hst.
    destruct k as [|[|[|k]]]; try contradiction.
    + split; [|exact I]. cbn [fst forallb].
      rewrite scalar_intro; [reflexivity|]. euclid.
    + split; [reflexivity|]. cbn. repeat split; euclid.
    + split; [reflexivity|]. cbn. repeat split; euclid.
  - destruct (lead_reachable b) as [Ho Hr].
    destruct (Utf8.lead b) as [out st']. split; [|exact Hr].
    cbn [fst forallb] in *. now rewrite Ho.
  - destruct (lead_reachable b) as [Ho Hr].
    destruct (Utf8.lead b) as [out st']. split; [|exact Hr].
    cbn [fst forallb] in *. now rewrite Ho.
Qed.

Lemma decode_from_scalar (bs : Buffer) (st : Utf8.state) :
  reachable st -> forallb scalar (Utf8.decode_from st bs) = true.
Proof.
  revert st. induction bs as [|b bs IH]; intros st Hst.
  - cbn [Utf8.decode_from]. now destruct (Utf8.bytes_needed st).
  - cbn [Utf8.decode_from].
    destruct (@step_reachable st (Byte.to_N b) Hst) as [Ho Hr].
    destruct (Utf8.step st (Byte.to_N b)) as [out st'].
    rewrite forallb_app. cbn [fst snd] in *. rewrite Ho. now apply IH.
Qed.

End Utf8RoundTrip.

(** X18.  On a 2xx answer the buffer [read] returns is always well-formed
    UTF-8, the encoding of a list of scalar values, and it is the body
    itself exactly when the body is well-formed UTF-8: text in any script
    is returned byte for byte, and a body with a malformed sequence is
    not. *)
Theorem read_preserves_exactly_wellformed_utf8
    (imports : Imports) (this : GithubUrlReader) (url ghUrl : string)
    (net : Upstream) (h : History) (r : Response) :
  getGitHubFileFetchUrl imports url (config this) = Ok ghUrl ->
  net h (read_request this url ghUrl) = Responded r ->
  ok r = true ->
  (exists s,
      forallb scalar s = true /\
      read imports this url net h
      = (Ok (Utf8.encode s), (h ++ [read_request this url ghUrl])%list)) /\
  (read imports this url net h
   = (Ok (Body.bytes (body r)), (h ++ [read_request this url ghUrl])%list)
   <->
   exists s, forallb scalar s = true /\ Body.bytes (body r) = Utf8.encode s).
Proof.
  intros Hg Hnet Hok.
  rewrite (read_ok imports this url Hg net h Hnet Hok).
  assert (Hs : forallb scalar (Utf8.decode (Body.bytes (body r))) = true)
    by (apply decode_from_scalar; exact I).
  split.
  - exists (Utf8.decode (Body.bytes (body r))). auto.
  - split.
    + intros H. injection H as H.
      exists (Utf8.decode (Body.bytes (body r))). auto.
    + intros (s & Hscalar & ->). now rewrite decode_encode.
Qed.

Lemma read_preserves_exactly_wellformed_utf8_witness :
  let net := Fixture.upstream "abc123" {| tree := []; truncated := false |}
               [] "" [xc3; xa9; xe2; x82; xac; xf0; x9f; x98; x80] in
  exists h1,
    read (Fixture.imports "README.md") Fixture.github_reader
      "https://github.com/acme/widgets/blob/main/README.md" net []
    = (Ok [xc3; xa9; xe2; x82; xac; xf0; x9f; x98; x80], h1).
Proof.
  intros net. eexists.
  apply (proj2 (@read_preserves_exactly_wellformed_utf8
                  (Fixture.imports "README.md") Fixture.github_reader
                  "https://github.com/acme/widgets/blob/main/README.md"
                  "https://raw.githubusercontent.com/acme/widgets/main/README.md"
                  net []
                  (Fixture.ok_response
                     {| Body.bytes :=
                          [xc3; xa9; xe2; x82; xac; xf0; x9f; x98; x80];
                        Body.json := None; Body.tar := None |})
                  eq_refl eq_refl eq_refl)).
  exists [233%N; 8364%N; 128512%N]. split; reflexivity.
Defined.

(* ------------------------------------------------------------------ *)
(** * Further properties at concrete inputs *)

Lemma fetch_returns_only_2xx_witness :
  let net : Upstream := fun _ _ => Responded Fixture.not_found in
  fetchJson (Fixture.api ++ "/git/blobs/1") {| headers := [] |} net []
  = (Throw (mkError NotFoundError
              "Request failed for https://api.github.com/repos/acme/widgets/git/blobs/1, 404 Not Found"),
     [request (Fixture.api ++ "/git/blobs/1") {| headers := [] |}]).
Proof.
  intros net.
  exact (proj2 (proj2 (proj2 (@fetch_returns_only_2xx
                  (Fixture.api ++ "/git/blobs/1") {| headers := [] |} net []))
                  Fixture.not_found eq_refl eq_refl)).
Defined.

Lemma resolution_failure_is_the_failure_of_the_call_witness :
  let net : Upstream := fun _ _ => Responded Fixture.not_found in
  let url := "https://github.com/acme/widgets/tree/main/docs" in
  exists m,
    readTree (Fixture.imports "docs") Fixture.github_reader url
      (Some {| ReadTreeOptions.etag := Some "abc123";
               ReadTreeOptions.filter := None |}) net []
    = (Throw (mkError NotFoundError m),
       [request Fixture.api {| headers := [] |}]).
Proof.
  intros net url.
  destruct (@resolution_failure_is_the_failure_of_the_call
              (Fixture.imports "docs") Fixture.github_reader url net [])
    as [Hcall Hrepo].
  specialize (Hrepo Fixture.not_found eq_refl eq_refl).
  eexists. apply (proj1 (Hcall _ _ Hrepo)).
Defined.

Lemma factory_is_all_or_nothing_witness :
  let bad := {| host := "ghe.example.com"; apiBaseUrl := None;
                rawBaseUrl := Some ""; token := Some "t" |} in
  factory (Fixture.imports "") [Fixture.github_com; bad; Fixture.github_com]
    (TreeMaterializer 1000000)
  = Throw (mkError Error_
      "GitHub integration for 'ghe.example.com' must configure an explicit apiBaseUrl and rawBaseUrl").
Proof.
  intros bad.
  apply (proj2 (@factory_is_all_or_nothing (Fixture.imports "")
                  (TreeMaterializer 1000000)
                  [Fixture.github_com; bad; Fixture.github_com])
           [Fixture.github_com] bad [Fixture.github_com] eq_refl).
  - intros c [<-|[]]. reflexivity.
  - reflexivity.
Defined.
